(** * useUldk: the list parser, the geometry pipeline and the request
    orchestrator of the hook, as a shallow embedding.

    The hook talks to the ULDK service.  Its text protocol is parsed by
    [prepareData] (pipe/newline delimited lists) and [prepareGeometry]
    (a status line followed by hex-encoded WKB blobs, each reprojected by
    [from2180to4326]); the hook itself ([useUldk]) keeps four option lists and
    one error slot and exposes the fetch operations.

    JavaScript strings are modelled by [string]; the only operations the
    source applies to them ([split], [includes], [+], truthiness) do not look
    inside a character.  JavaScript numbers are IEEE 754 doubles: [float]. *)

From Stdlib Require Import String Ascii List Bool Floats.
From ExtLib Require Import Structures.Monad Structures.MonadExc.
Import ListNotations.
Import MonadNotation.
Local Open Scope string_scope.
Local Open Scope monad_scope.

(** ** The JavaScript built-ins the source calls *)

Module JS.

(** [s.split(sep)] for a one-character separator: the separator-free segments
    of [s], in order; the empty string splits into one empty segment. *)
Fixpoint split (sep : ascii) (s : string) : list string :=
  match s with
  | EmptyString => [EmptyString]
  | String c rest =>
      if Ascii.eqb c sep then EmptyString :: split sep rest
      else match split sep rest with
           | seg :: segs => String c seg :: segs
           | [] => [String c EmptyString]
           end
  end.

(** [s.includes(sub)]: [sub] occurs in [s] at some position. *)
Fixpoint includes (s sub : string) : bool :=
  String.prefix sub s
  || match s with
     | EmptyString => false
     | String _ rest => includes rest sub
     end.

(** [Boolean(s)] for a string: every string but the empty one is truthy. *)
Definition truthy (s : string) : bool := negb (s =? "").

(** [arr.join(sep)], the inverse reading of [split]. *)
Definition join (sep : ascii) (segs : list string) : string :=
  String.concat (String sep EmptyString) segs.

(** Occurrence of one character, and the text around its first occurrence;
    these are the words the parsers' contracts are stated in. *)
Fixpoint has (c : ascii) (s : string) : bool :=
  match s with
  | EmptyString => false
  | String a rest => Ascii.eqb a c || has c rest
  end.

Fixpoint before (c : ascii) (s : string) : string :=
  match s with
  | EmptyString => EmptyString
  | String a rest => if Ascii.eqb a c then EmptyString else String a (before c rest)
  end.

Fixpoint after (c : ascii) (s : string) : string :=
  match s with
  | EmptyString => EmptyString
  | String a rest => if Ascii.eqb a c then rest else after c rest
  end.

End JS.

(** The line feed ["\n"] and the field separator ["|"]. *)
Definition LF : ascii := "010"%char.
Definition PIPE : ascii := "|"%char.
Definition nl : string := String LF EmptyString.

(** ** The list parser *)

(** [type Option = { label: string; value: string }].  Both fields are filled
    by array destructuring, which reads a missing slot as [undefined]; [None]
    stands for [undefined]. *)
Record Option : Type := { label : option string; value : option string }.

(** [function prepareData(data: string): Option[]] *)
Definition prepareData (data : string) : list Option :=
  let list := JS.split LF data in
  let list := tl list in                       (* list.shift() *)
  map (fun val =>
         let parts := JS.split PIPE val in     (* const [label, value] = ... *)
         {| label := nth_error parts 0; value := nth_error parts 1 |})
      (filter (fun val => JS.includes val "|") list).


(** ** Exceptions *)

(** What a [throw] carries and a [catch] receives: an Error object, read
    through its [name] and [message]. *)
Record JsError : Type := { name : string; message : string }.

(** [new Error(msg)] *)
Definition Error (msg : string) : JsError := {| name := "Error"; message := msg |}.

(** [new TypeError(msg)], what reading a property of [undefined] throws. *)
Definition TypeError (msg : string) : JsError := {| name := "TypeError"; message := msg |}.

(** [Error.prototype.toString], which ["..." + e] calls. *)
Definition errorToString (e : JsError) : string :=
  if name e =? "" then message e
  else if message e =? "" then name e
  else name e ++ ": " ++ message e.

(** A computation that returns ([inr]) or throws ([inl]). *)
Definition result (A : Type) : Type := (JsError + A)%type.

#[global] Instance Monad_result : Monad result :=
  {| ret := fun _ a => inr a;
     bind := fun _ _ m k => match m with inl e => inl e | inr a => k a end |}.

#[global] Instance Exc_result : MonadExc JsError result :=
  {| raise := fun _ e => inl e;
     catch := fun _ m h => match m with inl e => h e | inr a => inr a end |}.

(** [arr.map(f)] for a callback that may throw: elements are visited from the
    left and the first exception abandons the whole map. *)
Fixpoint mapE {A B : Type} (f : A -> result B) (l : list A) : result (list B) :=
  match l with
  | [] => ret []
  | a :: rest => b <- f a ;; bs <- mapE f rest ;; ret (b :: bs)
  end.

(** ** Geometry *)

(** GeoJSON [Position = number[]]. *)
Definition Position : Type := list float.

(** GeoJSON [Geometry], a union tagged by [type]. *)
#[warnings="-register-all"]
Inductive Geometry : Type :=
| Point (coordinates : Position)
| MultiPoint (coordinates : list Position)
| LineString (coordinates : list Position)
| MultiLineString (coordinates : list (list Position))
| Polygon (coordinates : list (list Position))
| MultiPolygon (coordinates : list (list (list Position)))
| GeometryCollection (geometries : list Geometry).

(** [Response] of the fetch API, as far as the hook reads it: [resp.text()]
    resolves to the body or rejects. *)
Record Response : Type := { text : result string }.

(** The libraries and the network the hook is linked against.
    - [proj4 from to coords]: the coordinate transformation of proj4js; the
      array it receives may hold [undefined] ([None]) slots, and it may throw;
    - [wkx_parse hex]: [wkx.Geometry.parse(Buffer.from(hex, "hex")).toGeoJSON()],
      which throws on a blob it cannot decode;
    - [network url]: what [fetch(url)] settles to. *)
Class Externals : Type := {
  proj4 : string -> string -> list (option float) -> result Position;
  wkx_parse : string -> result Geometry;
  network : string -> result Response
}.

(** ** The hook's state and its effects *)

(** The five [useState] slots of [useUldk]. *)
Record Hook : Type := {
  voivodeships : list Option;
  districts : list Option;
  tenants : list Option;
  precincts : list Option;
  error : option string
}.

(** What the hook does to the outside, in order. *)
Inductive Event : Type :=
| Fetch (url : string)
| ConsoleLog (e : JsError)
| ConsoleError (e : JsError)
| UnhandledRejection (e : JsError).

Record World : Type := { hook : Hook; log : list Event }.

(** An effectful computation: it reads and writes the world and returns or
    throws; for an [async] function, returning is the promise resolving and
    throwing is the promise rejecting.  Each [await] is run to completion. *)
Definition M (A : Type) : Type := World -> result A * World.

#[global] Instance Monad_M : Monad M :=
  {| ret := fun _ a w => (inr a, w);
     bind := fun _ _ m k w =>
       match m w with
       | (inr a, w') => k a w'
       | (inl e, w') => (inl e, w')
       end |}.

(** [try { m } catch (e) { h e }]; what [m] did before throwing stays done. *)
#[global] Instance Exc_M : MonadExc JsError M :=
  {| raise := fun _ e w => (inl e, w);
     catch := fun _ m h w =>
       match m w with
       | (inl e, w') => h e w'
       | (inr a, w') => (inr a, w')
       end |}.

Definition liftR {A : Type} (r : result A) : M A := fun w => (r, w).

Definition emit (ev : Event) : M unit :=
  fun w => (inr tt, {| hook := hook w; log := log w ++ [ev] |}).

(** The world after some more events, the slots as they were. *)
Definition logged (w : World) (evs : list Event) : World :=
  {| hook := hook w; log := log w ++ evs |}.

Definition console_log (e : JsError) : M unit := emit (ConsoleLog e).
Definition console_error (e : JsError) : M unit := emit (ConsoleError e).

Definition setHook (f : Hook -> Hook) : M unit :=
  fun w => (inr tt, {| hook := f (hook w); log := log w |}).

Definition setVoivodeships (l : list Option) : M unit :=
  setHook (fun h => {| voivodeships := l; districts := districts h; tenants := tenants h;
                       precincts := precincts h; error := error h |}).
Definition setDistricts (l : list Option) : M unit :=
  setHook (fun h => {| voivodeships := voivodeships h; districts := l; tenants := tenants h;
                       precincts := precincts h; error := error h |}).
Definition setTenants (l : list Option) : M unit :=
  setHook (fun h => {| voivodeships := voivodeships h; districts := districts h; tenants := l;
                       precincts := precincts h; error := error h |}).
Definition setPrecincts (l : list Option) : M unit :=
  setHook (fun h => {| voivodeships := voivodeships h; districts := districts h; tenants := tenants h;
                       precincts := l; error := error h |}).
Definition setError (msg : option string) : M unit :=
  setHook (fun h => {| voivodeships := voivodeships h; districts := districts h; tenants := tenants h;
                       precincts := precincts h; error := msg |}).

(** Calling an [async] function without awaiting it: a rejection is not thrown
    at the call site, it is reported as unhandled. *)
Definition fire {A : Type} (m : M A) : M unit :=
  catch (m ;; ret tt) (fun e => emit (UnhandledRejection e)).

(** ** The geometry pipeline and the hook *)

Section UseUldk.
Context `{E : Externals}.

Definition sourceProj : string := "EPSG:2180".
Definition destProj : string := "EPSG:4326".

(** The array literal [[x, y]] built from the destructured parameter
    [([x, y])]: slots 0 and 1 of the position, [undefined] where it is short. *)
Definition xy (p : Position) : list (option float) := [nth_error p 0; nth_error p 1].

(** [const transformPolygonCoordinates = (coord: Position[][]): Position[][]] *)
Definition transformPolygonCoordinates (coord : list (list Position))
  : result (list (list Position)) :=
  mapE (fun ring => mapE (fun p => proj4 sourceProj destProj (xy p)) ring) coord.

(** The coordinate dispatch of [from2180to4326] on the decoded [geojson]:
    an [if] on ["Polygon"], then an [if]/[else if] on ["MultiPolygon"] and
    ["Point"], each assigning [geojson.coordinates]. *)
Definition reproject (geojson : Geometry) : result Geometry :=
  geojson <- match geojson with
             | Polygon c => c' <- transformPolygonCoordinates c ;; ret (Polygon c')
             | _ => ret geojson
             end ;;
  match geojson with
  | MultiPolygon c => c' <- mapE (fun ring => transformPolygonCoordinates ring) c ;;
                      ret (MultiPolygon c')
  | Point c => c' <- proj4 sourceProj destProj (map Some c) ;; ret (Point c')
  | _ => ret geojson
  end.

(** [function from2180to4326(wkbFormatString: string): Geometry] *)
Definition from2180to4326 (wkbFormatString : string) : result Geometry :=
  geojson <- wkx_parse wkbFormatString ;;
  reproject geojson.

(** The [try] block of [prepareGeometry]. *)
Definition prepareGeometry_try (data : string) : result (list Geometry) :=
  match JS.split LF data with
  | status :: response =>
      if JS.includes status "-1" then raise (Error "Resource not found")
      else mapE (fun wkd => from2180to4326 wkd) (filter JS.truthy response)
  | [] => raise (TypeError "Cannot read properties of undefined (reading 'includes')")
  end.

(** [function prepareGeometry(data: string): Geometry[] | undefined]; [None]
    is [undefined], returned by falling off the end after the [catch]. *)
Definition prepareGeometry (data : string) : M (option (list Geometry)) :=
  catch (geoms <- liftR (prepareGeometry_try data) ;; ret (Some geoms))
        (fun error => console_log error ;; ret None).

(** [fetch(url)] and [resp.text()]. *)
Definition fetch (url : string) : M Response :=
  emit (Fetch url) ;; liftR (network url).

Definition text_of (resp : Response) : M string := liftR (text resp).

Definition listUrl (object teryt : string) : string :=
  "https://uldk.gugik.gov.pl/service.php?obiekt=" ++ object ++ "&wynik=" ++ object
    ++ ",teryt&teryt=" ++ teryt.

Definition voivodeshipsUrl : string :=
  "https://uldk.gugik.gov.pl/service.php?obiekt=wojewodztwo&wynik=wojewodztwo,teryt".

Definition regionUrl (regionId : string) : string :=
  "https://uldk.gugik.gov.pl/?request=GetRegionById&id=" ++ regionId.

Definition parcelUrl (parcelId : string) : string :=
  "https://uldk.gugik.gov.pl/?request=GetParcelById&id=" ++ parcelId.

(** What [fetchObject] resolves to: the parsed list, or the closure
    [() => controller.abort()]. *)
Inductive FetchObjectResult : Type :=
| OptionArray (list : list Option)
| AbortClosure.

(** [const fetchObject = useCallback(async ({ object, teryt }) => ...)] *)
Definition fetchObject (object teryt : string) : M FetchObjectResult :=
  catch (resp <- fetch (listUrl object teryt) ;;
         data <- text_of resp ;;
         ret (OptionArray (prepareData data)))
        (fun error =>
           (if negb (name error =? "AbortError") then console_error error else ret tt) ;;
           ret AbortClosure).

(** The first [useEffect]: the list of voivodeships, fetched once. *)
Definition fetchVoivodeships : M unit :=
  catch (resp <- fetch voivodeshipsUrl ;;
         data <- text_of resp ;;
         setVoivodeships (prepareData data))
        (fun e => console_error e ;;
                  setError (Some ("Failed to fetch voivodeships" ++ errorToString e))).

(** [const fetchDistricts = useCallback(async (value: string) => ...)];
    [Array.isArray(object)] is the match on [OptionArray]. *)
Definition fetchDistricts (value : string) : M unit :=
  catch (object <- fetchObject "powiat" value ;;
         match object with
         | OptionArray l => setDistricts l
         | AbortClosure => ret tt
         end)
        (fun e => console_error e).

(** [const fetchTenants = async (value: string) => ...] *)
Definition fetchTenants (value : string) : M unit :=
  object <- fetchObject "gmina" value ;;
  match object with
  | OptionArray l => setTenants l
  | AbortClosure => ret tt
  end.

(** [const fetchPrecincts = useCallback(async (value: string) => ...)] *)
Definition fetchPrecincts (value : string) : M unit :=
  object <- fetchObject "obreb" value ;;
  match object with
  | OptionArray l => setPrecincts l
  | AbortClosure => ret tt
  end.

(** [const getRegionGeometryById = useCallback(async (regionId: string) => ...)] *)
Definition getRegionGeometryById (regionId : string) : M (option (list Geometry)) :=
  resp <- fetch (regionUrl regionId) ;;
  data <- text_of resp ;;
  prepareGeometry data.

(** [const getParcelGeometryById = useCallback(async (parcelId: string) => ...)] *)
Definition getParcelGeometryById (parcelId : string) : M (option (list Geometry)) :=
  resp <- fetch (parcelUrl parcelId) ;;
  data <- text_of resp ;;
  prepareGeometry data.

(** [type useUldkPropsType = { voivodeship?, district?, tenant? } | undefined] *)
Record Props : Type := {
  voivodeship : option string;
  district : option string;
  tenant : option string
}.

(** [props?.field] *)
Definition optField (field : Props -> option string) (props : option Props) : option string :=
  match props with
  | Some p => field p
  | None => None
  end.

(** [if (props?.field) action(props.field)]: the action runs when the field is
    present and truthy, and is not awaited. *)
Definition whenTruthy (field : option string) (action : string -> M unit) : M unit :=
  match field with
  | Some v => if JS.truthy v then fire (action v) else ret tt
  | None => ret tt
  end.

(** The second [useEffect]: the cascade seeded by the props. *)
Definition seedCascade (props : option Props) : M unit :=
  whenTruthy (optField voivodeship props) fetchDistricts ;;
  whenTruthy (optField district props) fetchTenants ;;
  whenTruthy (optField tenant props) fetchPrecincts.

(** Mounting [useUldk(props)]: every slot starts at its [useState] default and
    the two effects run in the order they are declared. *)
Definition initialHook : Hook :=
  {| voivodeships := []; districts := []; tenants := []; precincts := []; error := None |}.

Definition useUldk (props : option Props) : M unit :=
  fetchVoivodeships ;;
  seedCascade props.

(** The three list levels below the voivodeship, their [obiekt] name, their
    fetch operation and their slot. *)
Inductive Level : Type := District | Tenant | Precinct.

Definition objectOf (lvl : Level) : string :=
  match lvl with District => "powiat" | Tenant => "gmina" | Precinct => "obreb" end.

Definition fetchLevel (lvl : Level) : string -> M unit :=
  match lvl with
  | District => fetchDistricts
  | Tenant => fetchTenants
  | Precinct => fetchPrecincts
  end.

Definition slot (lvl : Level) (h : Hook) : list Option :=
  match lvl with
  | District => districts h
  | Tenant => tenants h
  | Precinct => precincts h
  end.

(** The URLs requested, in order. *)
Definition requests (w : World) : list string :=
  flat_map (fun ev => match ev with Fetch url => [url] | _ => [] end) (log w).

End UseUldk.

(** ** The contracts, in the words of the specification *)

(** The option a pipe-containing line stands for according to the list
    parser's contract as the specification words it: the label is the text
    before the pipe and the value is the text after it. *)
Definition statedOptionOfLine (line : string) : Option :=
  {| label := Some (JS.before PIPE line); value := Some (JS.after PIPE line) |}.

(** The option the parser builds from a line: the label is the text before the
    first pipe, the value is the text between the first pipe and the next one
    (or the end of the line when there is no next one). *)
Definition optionOfLine (line : string) : Option :=
  {| label := Some (JS.before PIPE line);
     value := Some (JS.before PIPE (JS.after PIPE line)) |}.

Definition free (c : ascii) (s : string) : Prop := JS.has c s = false.

Section Contracts.
Context `{E : Externals}.

(** Every coordinate pair of a ring is transformed, in place and in order. *)
Definition ringReprojected (ring ring' : list Position) : Prop :=
  Forall2 (fun p p' => proj4 sourceProj destProj (xy p) = inr p') ring ring'.

(** Reprojection as the specification dispatches it on the geometry type. *)
Inductive reprojected : Geometry -> Geometry -> Prop :=
| reprojected_Point c c' :
    proj4 sourceProj destProj (map Some c) = inr c' ->
    reprojected (Point c) (Point c')
| reprojected_Polygon rings rings' :
    Forall2 ringReprojected rings rings' ->
    reprojected (Polygon rings) (Polygon rings')
| reprojected_MultiPolygon polygons polygons' :
    Forall2 (Forall2 ringReprojected) polygons polygons' ->
    reprojected (MultiPolygon polygons) (MultiPolygon polygons')
| reprojected_MultiPoint c : reprojected (MultiPoint c) (MultiPoint c)
| reprojected_LineString c : reprojected (LineString c) (LineString c)
| reprojected_MultiLineString c : reprojected (MultiLineString c) (MultiLineString c)
| reprojected_GeometryCollection gs :
    reprojected (GeometryCollection gs) (GeometryCollection gs).

(** The body a request delivers, when [fetch] resolves and [resp.text()]
    resolves too. *)
Definition bodyOf (url : string) : option string :=
  match network url with
  | inl _ => None
  | inr resp => match text resp with inl _ => None | inr data => Some data end
  end.

(** A request that fails: [fetch] rejects, or [resp.text()] does. *)
Definition fetchFails (url : string) : bool :=
  match bodyOf url with
  | None => true
  | Some _ => false
  end.

(** Events among which there is no request. *)
Definition quiet (evs : list Event) : Prop :=
  flat_map (fun ev => match ev with Fetch url => [url] | _ => [] end) evs = [].

(** What a list fetch does to the hook: on a body, the level's setter; on a
    failure, nothing. *)
Definition settle (set : list Option -> M unit) (url : string) (w : World) : Hook :=
  match bodyOf url with
  | Some data => hook (snd (set (prepareData data) w))
  | None => hook w
  end.

(** The slots once the voivodeship fetch has settled: the parsed body in
    [voivodeships], or a message in [error]. *)
Definition afterVoivodeships (h : Hook) : Hook :=
  let failed (e : JsError) :=
    {| voivodeships := voivodeships h; districts := districts h; tenants := tenants h;
       precincts := precincts h;
       error := Some ("Failed to fetch voivodeships" ++ errorToString e) |} in
  match network voivodeshipsUrl with
  | inl e => failed e
  | inr resp =>
      match text resp with
      | inl e => failed e
      | inr data =>
          {| voivodeships := prepareData data; districts := districts h;
             tenants := tenants h; precincts := precincts h; error := error h |}
      end
  end.

(** A request for the list of one administrative level. *)
Definition isListRequest (object url : string) : bool :=
  String.prefix ("https://uldk.gugik.gov.pl/service.php?obiekt=" ++ object ++ "&") url.

End Contracts.

(** ** Further vocabulary *)

(** The [type] tag of a GeoJSON geometry, which the dispatch compares. *)
Definition geometryType (g : Geometry) : string :=
  match g with
  | Point _ => "Point"
  | MultiPoint _ => "MultiPoint"
  | LineString _ => "LineString"
  | MultiLineString _ => "MultiLineString"
  | Polygon _ => "Polygon"
  | MultiPolygon _ => "MultiPolygon"
  | GeometryCollection _ => "GeometryCollection"
  end.

(** The request a seeded field stands for: none when the field is absent or
    falsy. *)
Definition requestOf (lvl : Level) (field : option string) : list string :=
  match field with
  | Some v => if JS.truthy v then [listUrl (objectOf lvl) v] else []
  | None => []
  end.

(** The requests of the cascade, in the order the effect issues them. *)
Definition seedRequests (props : option Props) : list string :=
  requestOf District (optField voivodeship props)
  ++ requestOf Tenant (optField district props)
  ++ requestOf Precinct (optField tenant props).

(** ** The example application *)

Section ExampleApp.
Context `{E : Externals}.

(** What the application does to the outside: what the hook does, and the two
    values it prints, [console.log({ geom })] and [console.log(parcel)]. *)
Inductive AppEvent : Type :=
| FromHook (ev : Event)
| LogGeom (geom : option (list Geometry))
| LogParcel (parcel : option (list Geometry)).

Record AppWorld : Type := { appHook : Hook; appLog : list AppEvent }.

Definition App (A : Type) : Type := AppWorld -> result A * AppWorld.

#[global] Instance Monad_App : Monad App :=
  {| ret := fun _ a w => (inr a, w);
     bind := fun _ _ m k w =>
       match m w with
       | (inr a, w') => k a w'
       | (inl e, w') => (inl e, w')
       end |}.

#[global] Instance Exc_App : MonadExc JsError App :=
  {| raise := fun _ e w => (inl e, w);
     catch := fun _ m h w =>
       match m w with
       | (inl e, w') => h e w'
       | (inr a, w') => (inr a, w')
       end |}.

(** An operation of the hook, run from the application: it works on the
    hook's slots and its events join the application's log in order. *)
Definition liftHook {A : Type} (m : M A) : App A :=
  fun aw =>
    let (r, w') := m {| hook := appHook aw; log := [] |} in
    (r, {| appHook := hook w'; appLog := appLog aw ++ map FromHook (log w') |}).

Definition appEmit (ev : AppEvent) : App unit :=
  fun aw => (inr tt, {| appHook := appHook aw; appLog := appLog aw ++ [ev] |}).

(** An [async] function of the application called without [await]. *)
Definition appFire {A : Type} (m : App A) : App unit :=
  catch (m ;; ret tt) (fun e => appEmit (FromHook (UnhandledRejection e))).

(** [const setRegionGeometry = async (id: string) => ...]; at run time [id]
    may be [undefined]. *)
Definition setRegionGeometry (id : option string) : App unit :=
  match id with
  | Some id' =>
      if JS.truthy id' then
        geom <- liftHook (getRegionGeometryById id') ;;
        appEmit (LogGeom geom)
      else ret tt
  | None => ret tt
  end.

Definition exampleParcelId : string := "141201_1.0001.1867/2".

(** [const setParcelGeometry = async () => ...] *)
Definition setParcelGeometry : App unit :=
  parcel <- liftHook (getParcelGeometryById exampleParcelId) ;;
  appEmit (LogParcel parcel).

(** [districts?.[0]?.value] *)
Definition firstValue (districts : list Option) : option string :=
  match districts with
  | o :: _ => value o
  | [] => None
  end.

(** The effect on [selectedVoivodeship]; [districts] is the list the render
    that created the effect closed over. *)
Definition selectionEffect (selectedVoivodeship : string) (districts : list Option)
  : App unit :=
  if JS.truthy selectedVoivodeship then
    liftHook (fire (fetchDistricts selectedVoivodeship)) ;;
    appFire (setRegionGeometry (firstValue districts)) ;;
    appFire setParcelGeometry
  else ret tt.

(** The URLs the application requested, in order. *)
Definition appRequests (aw : AppWorld) : list string :=
  flat_map (fun ev => match ev with FromHook (Fetch url) => [url] | _ => [] end) (appLog aw).

(** [useUldk()] as the application mounts it, without props. *)
Definition mountExampleApp : App unit := liftHook (useUldk None).

End ExampleApp.

Definition emptyApp : AppWorld := {| appHook := initialHook; appLog := [] |}.

(** ** Two environments to run the model in *)

Definition failedToFetch : JsError := TypeError "Failed to fetch".

(** A translation by the false origin stands in for proj4js; like proj4js it
    refuses an array whose first two slots are not both numbers. *)
Definition shift_proj4 (_ _ : string) (coords : list (option float)) : result Position :=
  match coords with
  | Some x :: Some y :: _ => inr [(x - 500000)%float; (y + 5300000)%float]
  | _ => inl (TypeError "coordinates must be finite numbers")
  end.

Definition square : list Position :=
  [[500000; -5300000]; [500010; -5300000]; [500010; -5299990]; [500000; -5300000]]%float.

(** A decoder that knows four blobs. *)
Definition table_wkx_parse (hex : string) : result Geometry :=
  if hex =? "01" then inr (Point [500000; -5300000]%float)
  else if hex =? "02" then inr (LineString square)
  else if hex =? "03" then inr (Polygon [square])
  else if hex =? "06" then inr (MultiPolygon [[square]; [square; square]])
  else inl (Error "GeometryType not supported").

(** A service that answers one list request and two geometry requests. *)
Definition served (url : string) : result Response :=
  if url =? listUrl "powiat" "02"
  then inr {| text := inr ("powiat|teryt" ++ nl ++ "boleslawiecki|0201" ++ nl) |}
  else if url =? regionUrl "02" then inr {| text := inr ("0" ++ nl ++ "03" ++ nl ++ "zz" ++ nl) |}
  else if url =? regionUrl "00" then inr {| text := inr ("-1 brak wynikow" ++ nl) |}
  else inl failedToFetch.

Definition online : Externals :=
  {| proj4 := shift_proj4; wkx_parse := table_wkx_parse; network := served |}.

Definition offline : Externals :=
  {| proj4 := shift_proj4; wkx_parse := table_wkx_parse; network := fun _ => inl failedToFetch |}.

Definition emptyWorld : World := {| hook := initialHook; log := [] |}.


(** A service that also answers the voivodeship list and two geometry
    requests with bodies that decode. *)
Definition servedFully (url : string) : result Response :=
  if url =? voivodeshipsUrl
  then inr {| text := inr ("wojewodztwo|teryt" ++ nl ++ "dolnoslaskie|02" ++ nl) |}
  else if url =? regionUrl "0201" then inr {| text := inr ("0" ++ nl ++ "03" ++ nl) |}
  else if url =? parcelUrl exampleParcelId then inr {| text := inr ("0" ++ nl ++ "01" ++ nl) |}
  else served url.

Definition complete : Externals :=
  {| proj4 := shift_proj4; wkx_parse := table_wkx_parse; network := servedFully |}.

(** A service whose requests are all cancelled. *)
Definition abortError : JsError :=
  {| name := "AbortError"; message := "The user aborted a request." |}.

Definition aborted : Externals :=
  {| proj4 := shift_proj4; wkx_parse := table_wkx_parse; network := fun _ => inl abortError |}.

(** * Properties *)

(** ** Strings *)

Section Strings.
Variable sep : ascii.

Lemma split_not_nil (s : string) : JS.split sep s <> [].
Proof.
  destruct s as [|c s]; simpl; [discriminate|].
  destruct (Ascii.eqb c sep); [discriminate|].
  destruct (JS.split sep s); discriminate.
Qed.

(** A string without the separator is its own single segment. *)
Lemma split_free (s : string) : free sep s -> JS.split sep s = [s].
Proof.
  unfold free. induction s as [|c s IH]; simpl; intros H; [reflexivity|].
  apply orb_false_iff in H. destruct H as [Hc Hs].
  rewrite Hc, (IH Hs). reflexivity.
Qed.

(** Otherwise the first segment is the text before the first separator and
    the others are the segments of the text after it. *)
Lemma split_has (s : string) :
  JS.has sep s = true ->
  JS.split sep s = JS.before sep s :: JS.split sep (JS.after sep s).
Proof.
  induction s as [|c s IH]; simpl; [discriminate|].
  destruct (Ascii.eqb c sep) eqn:Hc; simpl; intros H; [reflexivity|].
  rewrite (IH H). reflexivity.
Qed.

Lemma split_head (s : string) :
  exists rest, JS.split sep s = JS.before sep s :: rest.
Proof.
  induction s as [|c s [rest IH]]; simpl.
  - exists []. reflexivity.
  - destruct (Ascii.eqb c sep).
    + eexists. reflexivity.
    + rewrite IH. eexists. reflexivity.
Qed.

Lemma before_free (s : string) : free sep (JS.before sep s).
Proof.
  unfold free. induction s as [|c s IH]; simpl; [reflexivity|].
  destruct (Ascii.eqb c sep) eqn:Hc; simpl; [reflexivity|].
  rewrite Hc, IH. reflexivity.
Qed.

Lemma before_of_free (s : string) : free sep s -> JS.before sep s = s.
Proof.
  unfold free. induction s as [|c s IH]; simpl; intros H; [reflexivity|].
  apply orb_false_iff in H. destruct H as [Hc Hs].
  rewrite Hc, (IH Hs). reflexivity.
Qed.

(** A string that has the separator is the text before it, the separator and
    the text after it. *)
Lemma before_after (s : string) :
  JS.has sep s = true -> s = JS.before sep s ++ String sep (JS.after sep s).
Proof.
  induction s as [|c s IH]; simpl; [discriminate|].
  destruct (Ascii.eqb_spec c sep) as [->|Hc]; simpl; intros H; [reflexivity|].
  f_equal. apply IH, H.
Qed.

Lemma before_app (a b : string) :
  free sep a -> JS.before sep (a ++ String sep b) = a.
Proof.
  unfold free. induction a as [|c a IH]; simpl; intros H.
  - rewrite Ascii.eqb_refl. reflexivity.
  - apply orb_false_iff in H. destruct H as [Hc Ha].
    rewrite Hc, (IH Ha). reflexivity.
Qed.

Lemma after_app (a b : string) :
  free sep a -> JS.after sep (a ++ String sep b) = b.
Proof.
  unfold free. induction a as [|c a IH]; simpl; intros H.
  - rewrite Ascii.eqb_refl. reflexivity.
  - apply orb_false_iff in H. destruct H as [Hc Ha].
    rewrite Hc. apply IH, Ha.
Qed.

Lemma has_app (a b : string) : JS.has sep (a ++ b) = JS.has sep a || JS.has sep b.
Proof.
  induction a as [|c a IH]; simpl; [reflexivity|].
  rewrite IH. apply orb_assoc.
Qed.

Lemma join_cons (a b : string) (l : list string) :
  JS.join sep (a :: b :: l) = a ++ String sep (JS.join sep (b :: l)).
Proof. reflexivity. Qed.

(** [split] undoes [join] on separator-free segments... *)
Lemma split_join (seg : string) (segs : list string) :
  free sep seg -> Forall (free sep) segs ->
  JS.split sep (JS.join sep (seg :: segs)) = seg :: segs.
Proof.
  intros Hseg Hsegs. revert seg Hseg.
  induction Hsegs as [|x l Hx Hl IH]; intros seg Hseg.
  - apply split_free, Hseg.
  - rewrite join_cons, split_has.
    + rewrite before_app, after_app by assumption.
      rewrite (IH x Hx). reflexivity.
    + rewrite has_app. simpl. rewrite Ascii.eqb_refl. apply orb_true_r.
Qed.

(** ... and [join] undoes [split]: the segments are the separator-free
    pieces of the string, in order. *)
Lemma join_split (s : string) : JS.join sep (JS.split sep s) = s.
Proof.
  induction s as [|c s IH]; [reflexivity|].
  simpl. destruct (Ascii.eqb_spec c sep) as [->|Hc].
  - unfold JS.join in *. cbn [String.concat].
    destruct (JS.split sep s) eqn:Hs; [exact (False_ind _ (split_not_nil s Hs))|].
    simpl. f_equal. exact IH.
  - destruct (JS.split sep s) as [|seg segs] eqn:Hs; [exact (False_ind _ (split_not_nil s Hs))|].
    unfold JS.join in *. cbn [String.concat] in *.
    destruct segs; simpl in *; f_equal; exact IH.
Qed.

Lemma split_segments_free (s : string) : Forall (free sep) (JS.split sep s).
Proof.
  induction s as [|c s IH]; simpl.
  - constructor; [reflexivity | constructor].
  - destruct (Ascii.eqb c sep) eqn:Hc.
    + constructor; [reflexivity | exact IH].
    + destruct (JS.split sep s) as [|seg segs] eqn:Hs; [exact (False_ind _ (split_not_nil s Hs)) |].
      inversion IH; subst. constructor; [|assumption].
      unfold free in *. simpl. rewrite Hc. assumption.
Qed.

End Strings.

Lemma prefix_app (p s : string) :
  String.prefix p s = true <-> exists b, s = p ++ b.
Proof.
  revert s. induction p as [|c p IH]; intros s; simpl.
  - destruct s; split; eauto.
  - destruct s as [|a s]; simpl.
    + split; [discriminate | intros [b Hb]; discriminate].
    + destruct (ascii_dec c a) as [->|Hne].
      * rewrite IH. split; intros [b Hb]; exists b; congruence.
      * split; [discriminate | intros [b Hb]; congruence].
Qed.

(** [includes] is the substring test. *)
Lemma includes_spec (s sub : string) :
  JS.includes s sub = true <-> exists a b, s = a ++ sub ++ b.
Proof.
  induction s as [|c s IH]; cbn [JS.includes]; rewrite orb_true_iff, prefix_app.
  - split.
    + intros [[b Hb]|H]; [exists "", b; exact Hb | discriminate].
    + intros [a [b H]]. left. destruct a; [exists b; exact H | discriminate].
  - rewrite IH. split.
    + intros [[b Hb]|[a [b H]]]; [exists "", b; exact Hb | exists (String c a), b; simpl; congruence].
    + intros [[|c' a] [b H]]; [left; exists b; exact H | right; exists a, b].
      simpl in H. congruence.
Qed.

(** For a one-character pattern it is the occurrence test. *)
Lemma includes_char (s : string) (c : ascii) :
  JS.includes s (String c "") = JS.has c s.
Proof.
  induction s as [|a s IH]; [reflexivity|].
  cbn [JS.includes JS.has]. rewrite IH. f_equal.
  simpl. destruct (ascii_dec c a) as [->|Hne].
  - rewrite Ascii.eqb_refl. destruct s; reflexivity.
  - symmetry. apply Ascii.eqb_neq. congruence.
Qed.

(** ** The list parser *)

(** The two fields the parser reads off a line that contains a pipe. *)
Lemma split_pipe_fields (line : string) :
  JS.has PIPE line = true ->
  nth_error (JS.split PIPE line) 0 = Some (JS.before PIPE line) /\
  nth_error (JS.split PIPE line) 1 = Some (JS.before PIPE (JS.after PIPE line)).
Proof.
  intros H. rewrite (split_has _ _ H).
  destruct (split_head PIPE (JS.after PIPE line)) as [rest ->].
  split; reflexivity.
Qed.

Lemma prepareData_of_lines (lines : list string) :
  map (fun val => {| label := nth_error (JS.split PIPE val) 0;
                     value := nth_error (JS.split PIPE val) 1 |})
      (filter (fun val => JS.includes val "|") lines)
  = map optionOfLine (filter (JS.has PIPE) lines).
Proof.
  change "|" with (String PIPE "").
  induction lines as [|line lines IH]; [reflexivity|].
  cbn [filter]. rewrite includes_char.
  destruct (JS.has PIPE line) eqn:H; [|exact IH].
  cbn [map]. rewrite IH.
  destruct (split_pipe_fields line H) as [-> ->]. reflexivity.
Qed.

(** C2, as the code has it.  For every input, read as a header line followed
    by lines, [prepareData] discards the header and returns, in input order,
    exactly one option per line that contains a pipe; lines without a pipe
    (the empty line among them) are dropped.  The label is the text before
    the first pipe; the value is the text between the first pipe and the next
    one, or the end of the line when the line has a single pipe. *)
Theorem prepareData_lines (header : string) (lines : list string) :
  free LF header -> Forall (free LF) lines ->
  prepareData (JS.join LF (header :: lines))
  = map optionOfLine (filter (JS.has PIPE) lines).
Proof.
  intros Hh Hl. unfold prepareData.
  rewrite (split_join LF header lines Hh Hl). cbn [tl].
  apply prepareData_of_lines.
Qed.

(** The specification's first example, ["header\nA|1\nB|2\n"]. *)
Lemma prepareData_lines_witness :
  prepareData (JS.join LF ["header"; "A|1"; "B|2"; ""])
  = map optionOfLine (filter (JS.has PIPE) ["A|1"; "B|2"; ""]).
Proof.
  apply (prepareData_lines "header" ["A|1"; "B|2"; ""]).
  - reflexivity.
  - repeat constructor.
Defined.

(** Every input string is of that shape: a header line followed by lines. *)
Lemma every_input_is_lines (data : string) :
  exists header lines,
    data = JS.join LF (header :: lines) /\ free LF header /\ Forall (free LF) lines.
Proof.
  pose proof (join_split LF data) as Hj.
  pose proof (split_segments_free LF data) as Hf.
  destruct (JS.split LF data) as [|header lines] eqn:Hs.
  - exact (False_ind _ (split_not_nil LF data Hs)).
  - exists header, lines. inversion Hf; subst. auto.
Qed.

(** On a line with exactly one pipe the value is all the text after it, as
    the specification words it. *)
Lemma optionOfLine_single_pipe (line : string) :
  free PIPE (JS.after PIPE line) -> optionOfLine line = statedOptionOfLine line.
Proof.
  intros H. unfold optionOfLine, statedOptionOfLine.
  rewrite (before_of_free PIPE _ H). reflexivity.
Qed.

Example prepareData_spec_example :
  prepareData ("header" ++ nl ++ "A|1" ++ nl ++ "B|2" ++ nl)
  = [ {| label := Some "A"; value := Some "1" |};
      {| label := Some "B"; value := Some "2" |} ].
Proof. reflexivity. Qed.

Example prepareData_header_only : prepareData "header" = [].
Proof. reflexivity. Qed.

Example prepareData_empty_input : prepareData "" = [].
Proof. reflexivity. Qed.

(** C2 as stated fails on a line with a second pipe: for ["h\na|b|c"] the
    parser returns label ["a"] and value ["b"], not the text ["b|c"] after the
    pipe, and no reading of "the pipe" makes the line [label|value]. *)
Lemma prepareData_second_pipe_counterexample :
  prepareData ("h" ++ nl ++ "a|b|c") = [ {| label := Some "a"; value := Some "b" |} ] /\
  prepareData ("h" ++ nl ++ "a|b|c")
    <> map statedOptionOfLine (filter (JS.has PIPE) ["a|b|c"]) /\
  (forall a b, In {| label := Some a; value := Some b |} (prepareData ("h" ++ nl ++ "a|b|c")) ->
               a ++ "|" ++ b <> "a|b|c").
Proof.
  split; [reflexivity|]. split.
  - vm_compute. discriminate.
  - intros a b [H|[]]. injection H as <- <-. discriminate.
Qed.

(** ** Maps that may throw *)

Section MapE.
Context {A B : Type} (f : A -> result B).

(** A map returns exactly when the callback returns on every element, and
    then the results stand in the elements' places. *)
Lemma mapE_Forall2 (l : list A) (l' : list B) :
  mapE f l = inr l' <-> Forall2 (fun a b => f a = inr b) l l'.
Proof.
  revert l'. induction l as [|a l IH]; intros l'; simpl.
  - split; intros H; [injection H as <-; constructor | inversion H; reflexivity].
  - destruct (f a) as [e|b] eqn:Hfa.
    + split; [discriminate | intros H; inversion H; congruence].
    + destruct (mapE f l) as [e|bs] eqn:Hl.
      * split; [discriminate|]. intros H. inversion H; subst.
        match goal with H' : Forall2 _ l _ |- _ => apply IH in H'; discriminate end.
      * split.
        -- intros H. injection H as <-. constructor; [exact Hfa | apply IH; reflexivity].
        -- intros H. inversion H; subst.
           match goal with H' : Forall2 _ l _ |- _ => apply IH in H'; congruence end.
Qed.

(** One throwing element abandons the whole map. *)
Lemma mapE_throws (l : list A) (a : A) (e : JsError) :
  In a l -> f a = inl e -> exists e', mapE f l = inl e'.
Proof.
  induction l as [|x l IH]; intros Hin Hfa; [contradiction|]. simpl.
  destruct (f x) as [ex|b] eqn:Hfx; [eauto|].
  destruct Hin as [->|Hin]; [congruence|].
  destruct (IH Hin Hfa) as [e' ->]. eauto.
Qed.

Lemma mapE_returns (l : list A) :
  (forall a, In a l -> exists b, f a = inr b) -> exists l', mapE f l = inr l'.
Proof.
  induction l as [|x l IH]; intros H; simpl; [eauto|].
  destruct (H x (or_introl eq_refl)) as [b ->].
  destruct IH as [l' ->]; [intros a Ha; apply H; right; exact Ha | eauto].
Qed.

End MapE.

Lemma Forall2_nth_error_left {A B : Type} (R : A -> B -> Prop) (l : list A) (l' : list B) :
  Forall2 R l l' ->
  forall i a, nth_error l i = Some a -> exists b, nth_error l' i = Some b /\ R a b.
Proof.
  induction 1 as [|x y l l' Hxy Hl IH]; intros i a Hi.
  - destruct i; discriminate.
  - destruct i as [|i]; simpl in *.
    + injection Hi as <-. eauto.
    + apply IH, Hi.
Qed.

(** ** Reprojection *)

Section ReprojectionProperties.
Context `{E : Externals}.

Lemma transformRing_spec (ring ring' : list Position) :
  mapE (fun p => proj4 sourceProj destProj (xy p)) ring = inr ring'
  <-> ringReprojected ring ring'.
Proof. apply mapE_Forall2. Qed.

Lemma transformPolygonCoordinates_spec (coord coord' : list (list Position)) :
  transformPolygonCoordinates coord = inr coord' <-> Forall2 ringReprojected coord coord'.
Proof.
  unfold transformPolygonCoordinates. rewrite mapE_Forall2.
  split; apply Forall2_impl; intros ring ring'; apply transformRing_spec.
Qed.

Lemma transformMultiPolygon_spec (polygons polygons' : list (list (list Position))) :
  mapE (fun ring => transformPolygonCoordinates ring) polygons = inr polygons'
  <-> Forall2 (Forall2 ringReprojected) polygons polygons'.
Proof.
  rewrite mapE_Forall2.
  split; apply Forall2_impl; intros c c'; apply transformPolygonCoordinates_spec.
Qed.

(** The dispatch on the decoded geometry. *)
Lemma reproject_spec (g g' : Geometry) : reproject g = inr g' <-> reprojected g g'.
Proof.
  destruct g as [c|c|c|c|c|c|gs]; unfold reproject; cbn [bind ret Monad_result].
  - destruct (proj4 sourceProj destProj (map Some c)) as [e|c'] eqn:Hp.
    + split; [discriminate | intros H; inversion H; congruence].
    + split; intros H.
      * injection H as <-. constructor. exact Hp.
      * inversion H; congruence.
  - split; intros H; [injection H as <-; constructor | inversion H; reflexivity].
  - split; intros H; [injection H as <-; constructor | inversion H; reflexivity].
  - split; intros H; [injection H as <-; constructor | inversion H; reflexivity].
  - destruct (transformPolygonCoordinates c) as [e|c'] eqn:Hc.
    + split; [discriminate|]. intros H. inversion H; subst.
      match goal with H' : Forall2 _ c _ |- _ =>
        apply transformPolygonCoordinates_spec in H'; congruence end.
    + split; intros H.
      * injection H as <-. constructor. apply transformPolygonCoordinates_spec, Hc.
      * inversion H; subst.
        match goal with H' : Forall2 _ c _ |- _ =>
          apply transformPolygonCoordinates_spec in H'; congruence end.
  - destruct (mapE (fun ring => transformPolygonCoordinates ring) c) as [e|c'] eqn:Hc.
    + split; [discriminate|]. intros H. inversion H; subst.
      match goal with H' : Forall2 _ c _ |- _ =>
        apply transformMultiPolygon_spec in H'; congruence end.
    + split; intros H.
      * injection H as <-. constructor. apply transformMultiPolygon_spec, Hc.
      * inversion H; subst.
        match goal with H' : Forall2 _ c _ |- _ =>
          apply transformMultiPolygon_spec in H'; congruence end.
  - split; intros H; [injection H as <-; constructor | inversion H; reflexivity].
Qed.

(** C3.  Once the blob is decoded, [from2180to4326] returns exactly the
    geometry the dispatch by type prescribes: a Point with its coordinate
    array transformed, a Polygon with every pair of every ring transformed, a
    MultiPolygon with every pair of every ring of every polygon transformed,
    and a geometry of any other type as it was decoded. *)
Theorem from2180to4326_dispatch (wkb : string) (g g' : Geometry) :
  wkx_parse wkb = inr g ->
  (from2180to4326 wkb = inr g' <-> reprojected g g').
Proof.
  intros Hg. unfold from2180to4326. rewrite Hg. cbn [bind Monad_result].
  apply reproject_spec.
Qed.

(** The other four types pass through whatever proj4 would do. *)
Lemma reproject_other_types :
  (forall c, reproject (MultiPoint c) = inr (MultiPoint c)) /\
  (forall c, reproject (LineString c) = inr (LineString c)) /\
  (forall c, reproject (MultiLineString c) = inr (MultiLineString c)) /\
  (forall gs, reproject (GeometryCollection gs) = inr (GeometryCollection gs)).
Proof. repeat split. Qed.

(** C5.  Where proj4 accepts every pair of a polygon, the polygon is
    reprojected, and the result has as many rings as the input, ring [i] has
    as many points as ring [i] of the input, and point [j] of ring [i] is the
    transform of point [j] of ring [i]: counts and order stay, only the
    coordinate values change. *)
Theorem transformPolygonCoordinates_preserves_structure (coord : list (list Position)) :
  (forall ring p, In ring coord -> In p ring ->
                  exists p', proj4 sourceProj destProj (xy p) = inr p') ->
  exists coord',
    transformPolygonCoordinates coord = inr coord' /\
    reproject (Polygon coord) = inr (Polygon coord') /\
    length coord' = length coord /\
    forall i ring, nth_error coord i = Some ring ->
      exists ring',
        nth_error coord' i = Some ring' /\
        length ring' = length ring /\
        forall j p, nth_error ring j = Some p ->
          exists p', nth_error ring' j = Some p' /\
                     proj4 sourceProj destProj (xy p) = inr p'.
Proof.
  intros Hok.
  destruct (mapE_returns
              (fun ring => mapE (fun p => proj4 sourceProj destProj (xy p)) ring) coord)
    as [coord' Hc].
  { intros ring Hring. apply mapE_returns. intros p Hp. exact (Hok ring p Hring Hp). }
  exists coord'. split; [exact Hc|].
  pose proof (proj1 (transformPolygonCoordinates_spec coord coord') Hc) as HF.
  split; [apply reproject_spec; constructor; exact HF|].
  split; [symmetry; exact (Forall2_length HF)|].
  intros i ring Hi.
  destruct (Forall2_nth_error_left _ _ _ HF i ring Hi) as [ring' [Hi' Hring]].
  exists ring'. split; [exact Hi'|]. split; [symmetry; exact (Forall2_length Hring)|].
  intros j p Hj. exact (Forall2_nth_error_left _ _ _ Hring j p Hj).
Qed.

End ReprojectionProperties.

Lemma from2180to4326_dispatch_witness :
  @from2180to4326 online "03"
    = inr (Polygon [[[0; 0]; [10; 0]; [10; 10]; [0; 0]]%float])
  <-> @reprojected online (Polygon [square])
        (Polygon [[[0; 0]; [10; 0]; [10; 10]; [0; 0]]%float]).
Proof.
  apply (@from2180to4326_dispatch online "03"). reflexivity.
Defined.

Lemma transformPolygonCoordinates_preserves_structure_witness :
  exists coord',
    @transformPolygonCoordinates online [square; square] = inr coord' /\
    @reproject online (Polygon [square; square]) = inr (Polygon coord') /\
    length coord' = 2 /\
    forall i ring, nth_error [square; square] i = Some ring ->
      exists ring',
        nth_error coord' i = Some ring' /\
        length ring' = length ring /\
        forall j p, nth_error ring j = Some p ->
          exists p', nth_error ring' j = Some p' /\
                     shift_proj4 sourceProj destProj (xy p) = inr p'.
Proof.
  apply (@transformPolygonCoordinates_preserves_structure online [square; square]).
  intros ring p [<-|[<-|[]]] Hp; simpl in Hp;
    repeat (destruct Hp as [<-|Hp]; [eexists; reflexivity|]); contradiction.
Defined.

Example from2180to4326_point : @from2180to4326 online "01" = inr (Point [0; 0]%float).
Proof. reflexivity. Qed.

Example from2180to4326_line_string : @from2180to4326 online "02" = inr (LineString square).
Proof. reflexivity. Qed.

(** ** The geometry pipeline *)

Section PipelineProperties.
Context `{E : Externals}.

(** [prepareGeometry] is its [try] block under a [catch] that logs. *)
Lemma prepareGeometry_run (data : string) (w : World) :
  prepareGeometry data w
  = match prepareGeometry_try data with
    | inr geoms => (inr (Some geoms), w)
    | inl e => (inr None, logged w [ConsoleLog e])
    end.
Proof.
  unfold prepareGeometry, liftR, console_log, emit, logged.
  cbn [bind ret catch Monad_M Exc_M].
  destruct (prepareGeometry_try data); reflexivity.
Qed.

(** It never throws: a failure of the [try] block ends in [undefined]. *)
Lemma prepareGeometry_never_throws (data : string) (w : World) :
  exists r, fst (prepareGeometry data w) = inr r.
Proof.
  rewrite prepareGeometry_run. destruct (prepareGeometry_try data); simpl; eauto.
Qed.

(** C1.  When the first line of the input contains [-1], the [try] block
    throws the "Resource not found" error and [prepareGeometry] returns
    [undefined], having logged that error: no geometry list, partial or
    whole, is produced. *)
Theorem prepareGeometry_not_found (data : string) (w : World) :
  JS.includes (JS.before LF data) "-1" = true ->
  prepareGeometry_try data = inl (Error "Resource not found") /\
  prepareGeometry data w = (inr None, logged w [ConsoleLog (Error "Resource not found")]).
Proof.
  intros H.
  assert (Htry : prepareGeometry_try data = inl (Error "Resource not found")).
  { unfold prepareGeometry_try. destruct (split_head LF data) as [rest ->].
    rewrite H. reflexivity. }
  split; [exact Htry|]. rewrite prepareGeometry_run, Htry. reflexivity.
Qed.

Lemma truthy_nonempty (s : string) : s <> "" -> JS.truthy s = true.
Proof.
  intros H. unfold JS.truthy. apply negb_true_iff, String.eqb_neq, H.
Qed.

(** C4.  When the status line is free of [-1] and some non-empty line does
    not decode, the [try] block throws, [prepareGeometry] returns [undefined]
    rather than the geometries that did decode, and nothing is thrown to the
    caller; a geometry lookup served that body resolves to [undefined]. *)
Theorem prepareGeometry_all_or_nothing
  (status : string) (lines : list string) (line : string) (e : JsError) (w : World) :
  free LF status -> Forall (free LF) lines ->
  JS.includes status "-1" = false ->
  In line lines -> line <> "" -> wkx_parse line = inl e ->
  exists e',
    prepareGeometry_try (JS.join LF (status :: lines)) = inl e' /\
    prepareGeometry (JS.join LF (status :: lines)) w = (inr None, logged w [ConsoleLog e']) /\
    (forall id, bodyOf (regionUrl id) = Some (JS.join LF (status :: lines)) ->
                fst (getRegionGeometryById id w) = inr None) /\
    (forall id, bodyOf (parcelUrl id) = Some (JS.join LF (status :: lines)) ->
                fst (getParcelGeometryById id w) = inr None).
Proof.
  intros Hs Hl Hstatus Hin Hne Hdec.
  assert (Htry : exists e', prepareGeometry_try (JS.join LF (status :: lines)) = inl e').
  { unfold prepareGeometry_try. rewrite (split_join LF status lines Hs Hl), Hstatus.
    apply (mapE_throws _ _ line e).
    - apply filter_In. split; [exact Hin | apply truthy_nonempty, Hne].
    - unfold from2180to4326. rewrite Hdec. reflexivity. }
  destruct Htry as [e' Htry]. exists e'.
  split; [exact Htry|]. split; [rewrite prepareGeometry_run, Htry; reflexivity|].
  split; intros id Hbody; unfold bodyOf in Hbody.
  - unfold getRegionGeometryById, fetch, text_of, liftR, emit.
    cbn [bind ret Monad_M].
    destruct (network (regionUrl id)) as [?|resp]; [discriminate|].
    destruct (text resp) as [?|data]; [discriminate|]. injection Hbody as ->.
    rewrite prepareGeometry_run, Htry. reflexivity.
  - unfold getParcelGeometryById, fetch, text_of, liftR, emit.
    cbn [bind ret Monad_M].
    destruct (network (parcelUrl id)) as [?|resp]; [discriminate|].
    destruct (text resp) as [?|data]; [discriminate|]. injection Hbody as ->.
    rewrite prepareGeometry_run, Htry. reflexivity.
Qed.

End PipelineProperties.

Lemma prepareGeometry_not_found_witness :
  @prepareGeometry_try online ("-1" ++ nl) = inl (Error "Resource not found") /\
  @prepareGeometry online ("-1" ++ nl) emptyWorld
  = (inr None, logged emptyWorld [ConsoleLog (Error "Resource not found")]).
Proof.
  apply (@prepareGeometry_not_found online ("-1" ++ nl) emptyWorld). reflexivity.
Defined.

Lemma prepareGeometry_all_or_nothing_witness :
  exists e',
    @prepareGeometry_try online (JS.join LF ["0"; "03"; "zz"; ""]) = inl e' /\
    @prepareGeometry online (JS.join LF ["0"; "03"; "zz"; ""]) emptyWorld
    = (inr None, logged emptyWorld [ConsoleLog e']) /\
    (forall id, @bodyOf online (regionUrl id) = Some (JS.join LF ["0"; "03"; "zz"; ""]) ->
                fst (@getRegionGeometryById online id emptyWorld) = inr None) /\
    (forall id, @bodyOf online (parcelUrl id) = Some (JS.join LF ["0"; "03"; "zz"; ""]) ->
                fst (@getParcelGeometryById online id emptyWorld) = inr None).
Proof.
  apply (@prepareGeometry_all_or_nothing online "0" ["03"; "zz"; ""] "zz"
           (Error "GeometryType not supported") emptyWorld).
  - reflexivity.
  - repeat constructor.
  - reflexivity.
  - simpl. auto.
  - discriminate.
  - reflexivity.
Defined.

Example region_lookup_undecodable_line :
  fst (@getRegionGeometryById online "02" emptyWorld) = inr None.
Proof. reflexivity. Qed.

Example region_lookup_not_found :
  fst (@getRegionGeometryById online "00" emptyWorld) = inr None.
Proof. reflexivity. Qed.

(** ** The request orchestrator *)

Section OrchestratorProperties.
Context `{E : Externals}.

Lemma requests_logged (w : World) (url : string) (evs : list Event) :
  quiet evs -> requests (logged w (Fetch url :: evs)) = (requests w ++ [url])%list.
Proof.
  intros Hq. unfold requests, logged. cbn [log].
  rewrite flat_map_app. cbn [flat_map]. unfold quiet in Hq. rewrite Hq. reflexivity.
Qed.

(** [fetchObject] issues its one request, never throws, never touches a slot,
    and resolves to the parsed body or, when the request fails, to the abort
    closure. *)
Lemma fetchObject_run (object teryt : string) (w : World) :
  exists evs,
    quiet evs /\
    fetchObject object teryt w
    = (inr match bodyOf (listUrl object teryt) with
           | Some data => OptionArray (prepareData data)
           | None => AbortClosure
           end,
       logged w (Fetch (listUrl object teryt) :: evs)).
Proof.
  unfold fetchObject, fetch, text_of, liftR, console_error, emit, bodyOf, logged.
  cbn [bind ret catch Monad_M Exc_M hook log].
  destruct (network (listUrl object teryt)) as [e|resp].
  - destruct (negb (name e =? "AbortError")); cbn [hook log].
    + exists [ConsoleError e]. rewrite <- app_assoc. split; reflexivity.
    + exists []. split; reflexivity.
  - destruct (text resp) as [e|data].
    + destruct (negb (name e =? "AbortError")); cbn [hook log].
      * exists [ConsoleError e]. rewrite <- app_assoc. split; reflexivity.
      * exists []. split; reflexivity.
    + exists []. split; reflexivity.
Qed.

Lemma fetchLevel_run (lvl : Level) (value : string) (w : World) :
  exists evs,
    quiet evs /\
    fetchLevel lvl value w
    = (inr tt,
       {| hook := settle (match lvl with
                          | District => setDistricts
                          | Tenant => setTenants
                          | Precinct => setPrecincts
                          end) (listUrl (objectOf lvl) value) w;
          log := log w ++ Fetch (listUrl (objectOf lvl) value) :: evs |}).
Proof.
  destruct lvl; cbn [fetchLevel objectOf];
    unfold fetchDistricts, fetchTenants, fetchPrecincts, settle;
    cbn [bind ret catch Monad_M Exc_M];
    match goal with
    | |- context [fetchObject ?o value w] =>
        destruct (fetchObject_run o value w) as [evs [Hq ->]]
    end;
    exists evs; (split; [exact Hq|]);
    destruct (bodyOf _); reflexivity.
Qed.

(** A failed list fetch resolves and leaves every slot as it was. *)
Lemma fetchLevel_failure (lvl : Level) (value : string) (w : World) :
  fetchFails (listUrl (objectOf lvl) value) = true ->
  fst (fetchLevel lvl value w) = inr tt /\ hook (snd (fetchLevel lvl value w)) = hook w.
Proof.
  intros Hf. destruct (fetchLevel_run lvl value w) as [evs [_ ->]].
  unfold fetchFails in Hf. unfold settle. cbn [fst snd hook].
  destruct (bodyOf (listUrl (objectOf lvl) value)); [discriminate | split; reflexivity].
Qed.

(** C10.  When the request of a list fetch fails, [fetchObject] resolves to
    the abort closure, which is no array, and the level's fetch operation
    resolves leaving its option list exactly as it was. *)
Theorem list_fetch_failure_keeps_list (lvl : Level) (value : string) (w : World) :
  fetchFails (listUrl (objectOf lvl) value) = true ->
  fst (fetchObject (objectOf lvl) value w) = inr AbortClosure /\
  fst (fetchLevel lvl value w) = inr tt /\
  slot lvl (hook (snd (fetchLevel lvl value w))) = slot lvl (hook w).
Proof.
  intros Hf. split.
  - destruct (fetchObject_run (objectOf lvl) value w) as [evs [_ ->]].
    unfold fetchFails in Hf. cbn [fst].
    destruct (bodyOf (listUrl (objectOf lvl) value)); [discriminate | reflexivity].
  - destruct (fetchLevel_failure lvl value w Hf) as [Hr Hh]. rewrite Hh. auto.
Qed.

(** C7, as the code has it.  A failed list fetch at the district, tenant or
    precinct level leaves the error slot as it was: no message is recorded
    there (the failure is only written to the console). *)
Theorem list_fetch_failure_leaves_error_slot (lvl : Level) (value : string) (w : World) :
  fetchFails (listUrl (objectOf lvl) value) = true ->
  error (hook (snd (fetchLevel lvl value w))) = error (hook w).
Proof.
  intros Hf. destruct (fetchLevel_failure lvl value w Hf) as [_ ->]. reflexivity.
Qed.

(** The voivodeship fetch is the path that does record a message. *)
Lemma fetchVoivodeships_failure_sets_error (e : JsError) (w : World) :
  network voivodeshipsUrl = inl e ->
  error (hook (snd (fetchVoivodeships w)))
  = Some ("Failed to fetch voivodeships" ++ errorToString e).
Proof.
  intros Hn. unfold fetchVoivodeships, fetch, text_of, liftR, console_error, setError,
    setHook, emit.
  cbn [bind ret catch Monad_M Exc_M hook log]. rewrite Hn. reflexivity.
Qed.

(** C6, as the code has it.  A geometry lookup whose request is rejected by
    the network rejects with the network's error: the error reaches the
    caller instead of [undefined]. *)
Theorem geometry_lookup_network_error_propagates (id : string) (e : JsError) (w : World) :
  network (regionUrl id) = inl e -> network (parcelUrl id) = inl e ->
  fst (getRegionGeometryById id w) = inl e /\
  fst (getParcelGeometryById id w) = inl e.
Proof.
  intros Hr Hp. unfold getRegionGeometryById, getParcelGeometryById, fetch, liftR, emit.
  cbn [bind ret Monad_M]. rewrite Hr, Hp. split; reflexivity.
Qed.

(** A lookup served a not-found status resolves to [undefined]. *)
Lemma geometry_lookup_not_found (id data : string) (w : World) :
  bodyOf (regionUrl id) = Some data ->
  JS.includes (JS.before LF data) "-1" = true ->
  fst (getRegionGeometryById id w) = inr None.
Proof.
  intros Hb Hs. unfold bodyOf in Hb.
  unfold getRegionGeometryById, fetch, text_of, liftR, emit. cbn [bind ret Monad_M].
  destruct (network (regionUrl id)) as [?|resp]; [discriminate|].
  destruct (text resp) as [?|d]; [discriminate|]. injection Hb as ->.
  rewrite prepareGeometry_run.
  unfold prepareGeometry_try. destruct (split_head LF data) as [rest ->].
  rewrite Hs. reflexivity.
Qed.

(** So does a rejection of [resp.text()]. *)
Lemma geometry_lookup_text_error_propagates (id : string) (resp : Response) (e : JsError)
  (w : World) :
  network (regionUrl id) = inr resp -> text resp = inl e ->
  fst (getRegionGeometryById id w) = inl e.
Proof.
  intros Hn Ht. unfold getRegionGeometryById, fetch, text_of, liftR, emit.
  cbn [bind ret Monad_M]. rewrite Hn, Ht. reflexivity.
Qed.

(** A lookup whose request delivers a body does not throw, whatever the body. *)
Lemma geometry_lookup_body_never_throws (id data : string) (w : World) :
  bodyOf (regionUrl id) = Some data -> exists r, fst (getRegionGeometryById id w) = inr r.
Proof.
  intros Hb. unfold bodyOf in Hb.
  unfold getRegionGeometryById, fetch, text_of, liftR, emit. cbn [bind ret Monad_M].
  destruct (network (regionUrl id)) as [?|resp]; [discriminate|].
  destruct (text resp) as [?|d]; [discriminate|].
  apply prepareGeometry_never_throws.
Qed.

End OrchestratorProperties.

Lemma list_fetch_failure_keeps_list_witness :
  fst (@fetchObject offline (objectOf Tenant) "0201" emptyWorld) = inr AbortClosure /\
  fst (@fetchLevel offline Tenant "0201" emptyWorld) = inr tt /\
  slot Tenant (hook (snd (@fetchLevel offline Tenant "0201" emptyWorld)))
  = slot Tenant (hook emptyWorld).
Proof.
  apply (@list_fetch_failure_keeps_list offline Tenant "0201" emptyWorld). reflexivity.
Defined.

Lemma list_fetch_failure_leaves_error_slot_witness :
  error (hook (snd (@fetchLevel offline District "02" emptyWorld))) = None.
Proof.
  apply (@list_fetch_failure_leaves_error_slot offline District "02" emptyWorld). reflexivity.
Defined.

Lemma geometry_lookup_network_error_propagates_witness :
  fst (@getRegionGeometryById offline "02" emptyWorld) = inl failedToFetch /\
  fst (@getParcelGeometryById offline "02" emptyWorld) = inl failedToFetch.
Proof.
  apply (@geometry_lookup_network_error_propagates offline "02" failedToFetch emptyWorld);
    reflexivity.
Defined.

(** ** Seeding the cascade *)

Section SeedingProperties.
Context `{E : Externals}.

(** The voivodeship fetch issues its one request, resolves, and writes no
    slot but [voivodeships] and [error]. *)
Lemma fetchVoivodeships_run (w : World) :
  exists evs h,
    quiet evs /\
    fetchVoivodeships w
    = (inr tt, {| hook := h; log := log w ++ Fetch voivodeshipsUrl :: evs |}) /\
    districts h = districts (hook w) /\
    tenants h = tenants (hook w) /\
    precincts h = precincts (hook w).
Proof.
  unfold fetchVoivodeships, fetch, text_of, liftR, console_error, setError,
    setVoivodeships, setHook, emit.
  cbn [bind ret catch Monad_M Exc_M hook log].
  destruct (network voivodeshipsUrl) as [e|resp]; cbn [hook log].
  - eexists [ConsoleError e], _. rewrite <- app_assoc. repeat split.
  - destruct (text resp) as [e|data]; cbn [hook log].
    + eexists [ConsoleError e], _. rewrite <- app_assoc. repeat split.
    + eexists [], _. repeat split.
Qed.

(** Seeded with a voivodeship only, the cascade is one district fetch. *)
Lemma seedCascade_voivodeship_run (v : string) (w : World) :
  v <> "" ->
  exists evs,
    quiet evs /\
    seedCascade (Some {| voivodeship := Some v; district := None; tenant := None |}) w
    = (inr tt,
       {| hook := settle setDistricts (listUrl "powiat" v) w;
          log := log w ++ Fetch (listUrl "powiat" v) :: evs |}).
Proof.
  intros Hv. destruct (fetchLevel_run District v w) as [evs [Hq Hrun]].
  cbn [fetchLevel objectOf] in Hrun.
  exists evs. split; [exact Hq|].
  unfold seedCascade, whenTruthy, optField, fire. cbn [voivodeship district tenant].
  rewrite (truthy_nonempty v Hv).
  cbn [bind ret catch Monad_M Exc_M]. rewrite Hrun. reflexivity.
Qed.

Lemma settle_setDistricts (url : string) (w : World) :
  settle setDistricts url w
  = {| voivodeships := voivodeships (hook w);
       districts := match bodyOf url with
                    | Some data => prepareData data
                    | None => districts (hook w)
                    end;
       tenants := tenants (hook w);
       precincts := precincts (hook w);
       error := error (hook w) |}.
Proof.
  unfold settle. destruct (bodyOf url); [reflexivity | destruct (hook w); reflexivity].
Qed.

(** C9.  With props that hold a voivodeship code and nothing else, the
    seeding effect issues exactly one request, the district list of that code,
    and writes the districts slot only; mounting the hook issues that request
    after the voivodeship list request, so exactly one district request and no
    tenant or precinct request, and leaves [tenants] and [precincts] as they
    were; [districts] becomes the parsed body when the request delivers one. *)
Theorem seeding_with_voivodeship_only (v : string) (w : World) :
  v <> "" ->
  (requests (snd (seedCascade (Some {| voivodeship := Some v; district := None;
                                        tenant := None |}) w))
   = (requests w ++ [listUrl "powiat" v])%list /\
   hook (snd (seedCascade (Some {| voivodeship := Some v; district := None;
                                   tenant := None |}) w))
   = {| voivodeships := voivodeships (hook w);
        districts := match bodyOf (listUrl "powiat" v) with
                     | Some data => prepareData data
                     | None => districts (hook w)
                     end;
        tenants := tenants (hook w);
        precincts := precincts (hook w);
        error := error (hook w) |}) /\
  (fst (useUldk (Some {| voivodeship := Some v; district := None; tenant := None |}) w)
   = inr tt /\
   requests (snd (useUldk (Some {| voivodeship := Some v; district := None;
                                   tenant := None |}) w))
   = (requests w ++ [voivodeshipsUrl; listUrl "powiat" v])%list /\
   filter (isListRequest "powiat") [voivodeshipsUrl; listUrl "powiat" v]
   = [listUrl "powiat" v] /\
   filter (isListRequest "gmina") [voivodeshipsUrl; listUrl "powiat" v] = [] /\
   filter (isListRequest "obreb") [voivodeshipsUrl; listUrl "powiat" v] = [] /\
   tenants (hook (snd (useUldk (Some {| voivodeship := Some v; district := None;
                                        tenant := None |}) w)))
   = tenants (hook w) /\
   precincts (hook (snd (useUldk (Some {| voivodeship := Some v; district := None;
                                          tenant := None |}) w)))
   = precincts (hook w) /\
   districts (hook (snd (useUldk (Some {| voivodeship := Some v; district := None;
                                          tenant := None |}) w)))
   = match bodyOf (listUrl "powiat" v) with
     | Some data => prepareData data
     | None => districts (hook w)
     end).
Proof.
  intros Hv. split.
  - destruct (seedCascade_voivodeship_run v w Hv) as [evs [Hq ->]]. cbn [snd hook].
    split; [exact (requests_logged w _ evs Hq) | apply settle_setDistricts].
  - unfold useUldk. cbn [bind Monad_M].
    destruct (fetchVoivodeships_run w) as [evs0 [h [Hq0 [-> [Hd [Ht Hp]]]]]].
    set (w1 := {| hook := h; log := log w ++ Fetch voivodeshipsUrl :: evs0 |}).
    destruct (seedCascade_voivodeship_run v w1 Hv) as [evs [Hq ->]]. cbn [fst snd hook].
    rewrite settle_setDistricts. cbn [tenants precincts districts hook].
    split; [reflexivity|]. split.
    { unfold requests. subst w1. cbn [log]. unfold quiet in Hq, Hq0.
      rewrite !flat_map_app. cbn [flat_map]. rewrite Hq, Hq0.
      rewrite <- app_assoc. reflexivity. }
    subst w1. cbn [hook]. rewrite Hd, Ht, Hp.
    repeat split.
Qed.

Lemma fetchVoivodeships_hook (w : World) :
  hook (snd (fetchVoivodeships w)) = afterVoivodeships (hook w).
Proof.
  unfold fetchVoivodeships, afterVoivodeships, fetch, text_of, liftR, console_error,
    setError, setVoivodeships, setHook, emit.
  cbn [bind ret catch Monad_M Exc_M hook log].
  destruct (network voivodeshipsUrl) as [e|resp]; [reflexivity|].
  destruct (text resp); reflexivity.
Qed.

(** The two effects of the mount write different slots, so the slots end the
    same whichever of the two requests settles first. *)
Lemma mount_effects_commute (v : string) (w : World) :
  v <> "" ->
  hook (snd ((fetchVoivodeships ;;
              seedCascade (Some {| voivodeship := Some v; district := None;
                                   tenant := None |})) w))
  = hook (snd ((seedCascade (Some {| voivodeship := Some v; district := None;
                                     tenant := None |}) ;;
                fetchVoivodeships) w)).
Proof.
  intros Hv. cbn [bind Monad_M].
  destruct (fetchVoivodeships_run w) as [evs0 [h [_ [Hrun _]]]].
  pose proof (fetchVoivodeships_hook w) as Hh. rewrite Hrun in *. cbn [snd hook] in Hh.
  destruct (seedCascade_voivodeship_run v
              {| hook := h; log := log w ++ Fetch voivodeshipsUrl :: evs0 |} Hv)
    as [evs1 [_ ->]].
  destruct (seedCascade_voivodeship_run v w Hv) as [evs2 [_ ->]].
  cbn [snd hook]. rewrite fetchVoivodeships_hook. cbn [hook].
  rewrite !settle_setDistricts. cbn [hook]. subst h.
  unfold afterVoivodeships.
  destruct (network voivodeshipsUrl) as [e|resp]; [reflexivity|].
  destruct (text resp); reflexivity.
Qed.

End SeedingProperties.

Lemma seeding_with_voivodeship_only_witness :
  (requests (snd (@seedCascade online (Some {| voivodeship := Some "02"; district := None;
                                                tenant := None |}) emptyWorld))
   = (requests emptyWorld ++ [listUrl "powiat" "02"])%list /\
   hook (snd (@seedCascade online (Some {| voivodeship := Some "02"; district := None;
                                           tenant := None |}) emptyWorld))
   = {| voivodeships := voivodeships (hook emptyWorld);
        districts := match @bodyOf online (listUrl "powiat" "02") with
                     | Some data => prepareData data
                     | None => districts (hook emptyWorld)
                     end;
        tenants := tenants (hook emptyWorld);
        precincts := precincts (hook emptyWorld);
        error := error (hook emptyWorld) |}) /\
  (fst (@useUldk online (Some {| voivodeship := Some "02"; district := None;
                                 tenant := None |}) emptyWorld)
   = inr tt /\
   requests (snd (@useUldk online (Some {| voivodeship := Some "02"; district := None;
                                           tenant := None |}) emptyWorld))
   = (requests emptyWorld ++ [voivodeshipsUrl; listUrl "powiat" "02"])%list /\
   filter (isListRequest "powiat") [voivodeshipsUrl; listUrl "powiat" "02"]
   = [listUrl "powiat" "02"] /\
   filter (isListRequest "gmina") [voivodeshipsUrl; listUrl "powiat" "02"] = [] /\
   filter (isListRequest "obreb") [voivodeshipsUrl; listUrl "powiat" "02"] = [] /\
   tenants (hook (snd (@useUldk online (Some {| voivodeship := Some "02"; district := None;
                                                tenant := None |}) emptyWorld)))
   = tenants (hook emptyWorld) /\
   precincts (hook (snd (@useUldk online (Some {| voivodeship := Some "02"; district := None;
                                                  tenant := None |}) emptyWorld)))
   = precincts (hook emptyWorld) /\
   districts (hook (snd (@useUldk online (Some {| voivodeship := Some "02"; district := None;
                                                  tenant := None |}) emptyWorld)))
   = match @bodyOf online (listUrl "powiat" "02") with
     | Some data => prepareData data
     | None => districts (hook emptyWorld)
     end).
Proof.
  apply (@seeding_with_voivodeship_only online "02" emptyWorld). discriminate.
Defined.

Example seeding_02_end_to_end :
  hook (snd (@useUldk online (Some {| voivodeship := Some "02"; district := None;
                                      tenant := None |}) emptyWorld))
  = {| voivodeships := [];
       districts := [ {| label := Some "boleslawiecki"; value := Some "0201" |} ];
       tenants := [];
       precincts := [];
       error := Some "Failed to fetch voivodeshipsTypeError: Failed to fetch" |} /\
  requests (snd (@useUldk online (Some {| voivodeship := Some "02"; district := None;
                                          tenant := None |}) emptyWorld))
  = [ "https://uldk.gugik.gov.pl/service.php?obiekt=wojewodztwo&wynik=wojewodztwo,teryt";
      "https://uldk.gugik.gov.pl/service.php?obiekt=powiat&wynik=powiat,teryt&teryt=02" ].
Proof. split; reflexivity. Qed.

(** An empty code is no code: the guard [if (props?.voivodeship)] skips it. *)
Example seeding_empty_code_fetches_nothing :
  @seedCascade online (Some {| voivodeship := Some ""; district := None; tenant := None |})
    emptyWorld
  = (inr tt, emptyWorld).
Proof. reflexivity. Qed.

(** * Further properties *)

(** ** The list parser, beyond its contract *)

Lemma free_before (c d : ascii) (s : string) : free c s -> free c (JS.before d s).
Proof.
  unfold free. induction s as [|a s IH]; simpl; intros H; [reflexivity|].
  apply orb_false_iff in H. destruct H as [Ha Hs].
  destruct (Ascii.eqb a d); simpl; [reflexivity|]. rewrite Ha, (IH Hs). reflexivity.
Qed.

Lemma free_after (c d : ascii) (s : string) : free c s -> free c (JS.after d s).
Proof.
  unfold free. induction s as [|a s IH]; simpl; intros H; [reflexivity|].
  apply orb_false_iff in H. destruct H as [Ha Hs].
  destruct (Ascii.eqb a d); [exact Hs | exact (IH Hs)].
Qed.

Lemma prepareData_unfold (data : string) :
  prepareData data = map optionOfLine (filter (JS.has PIPE) (tl (JS.split LF data))).
Proof. unfold prepareData. apply prepareData_of_lines. Qed.

(** Whatever the input, both fields of every returned option are defined
    strings, and neither holds a pipe or a line feed. *)
Theorem prepareData_fields_clean (data : string) :
  Forall (fun o => exists l v,
            label o = Some l /\ value o = Some v /\
            free PIPE l /\ free PIPE v /\ free LF l /\ free LF v)
         (prepareData data).
Proof.
  rewrite prepareData_unfold. apply Forall_forall. intros o Ho.
  apply in_map_iff in Ho. destruct Ho as [line [<- Hline]].
  apply filter_In in Hline. destruct Hline as [Hin _].
  assert (Hfree : free LF line).
  { pose proof (split_segments_free LF data) as Hall.
    destruct (JS.split LF data) as [|h t]; [contradiction|].
    inversion Hall; subst. cbn [tl] in Hin.
    match goal with H : Forall _ t |- _ => exact (proj1 (Forall_forall _ _) H line Hin) end. }
  exists (JS.before PIPE line), (JS.before PIPE (JS.after PIPE line)).
  repeat split.
  - apply before_free.
  - apply before_free.
  - apply free_before, Hfree.
  - apply free_before, free_after, Hfree.
Qed.

(** An input without a line feed is all header: nothing is returned, even
    when that one line is a [label|value] record. *)
Theorem prepareData_single_line (data : string) :
  free LF data -> prepareData data = [].
Proof.
  intros H. rewrite prepareData_unfold, (split_free LF data H). reflexivity.
Qed.

Lemma prepareData_single_line_witness : prepareData "Dolnoslaskie|02" = [].
Proof. apply (prepareData_single_line "Dolnoslaskie|02"). reflexivity. Defined.

(** The first line is dropped whatever it holds. *)
Theorem prepareData_header_ignored (header header' : string) (lines : list string) :
  free LF header -> free LF header' -> Forall (free LF) lines ->
  prepareData (JS.join LF (header :: lines)) = prepareData (JS.join LF (header' :: lines)).
Proof.
  intros Hh Hh' Hl. rewrite !prepareData_unfold.
  rewrite (split_join LF header lines Hh Hl), (split_join LF header' lines Hh' Hl).
  reflexivity.
Qed.

Lemma prepareData_header_ignored_witness :
  prepareData (JS.join LF ["A|1"; "B|2"]) = prepareData (JS.join LF [""; "B|2"]).
Proof.
  apply (prepareData_header_ignored "A|1" "" ["B|2"]).
  - reflexivity.
  - reflexivity.
  - repeat constructor.
Defined.

Lemma optionOfLine_record (l v : string) :
  free PIPE l -> free PIPE v ->
  JS.has PIPE (l ++ "|" ++ v) = true /\
  optionOfLine (l ++ "|" ++ v) = {| label := Some l; value := Some v |}.
Proof.
  intros Hl Hv. change ("|" ++ v) with (String PIPE v). split.
  - rewrite has_app. simpl. rewrite orb_true_r. reflexivity.
  - unfold optionOfLine.
    rewrite (before_app PIPE l v Hl), (after_app PIPE l v Hl), (before_of_free PIPE v Hv).
    reflexivity.
Qed.

(** Round trip with the service's format: a header followed by one
    [label|value] line per record parses back to the records, in order,
    provided no label or value holds a pipe or a line feed. *)
Theorem prepareData_round_trip (header : string) (records : list (string * string)) :
  free LF header ->
  Forall (fun r => free PIPE (fst r) /\ free PIPE (snd r) /\
                   free LF (fst r) /\ free LF (snd r)) records ->
  prepareData (JS.join LF (header :: map (fun r => fst r ++ "|" ++ snd r) records))
  = map (fun r => {| label := Some (fst r); value := Some (snd r) |}) records.
Proof.
  intros Hh Hr. rewrite prepareData_unfold, split_join; [cbn [tl] | exact Hh |].
  - induction Hr as [|[l v] rs [Hl [Hv _]] _ IH]; [reflexivity|].
    cbn [map fst snd filter].
    destruct (optionOfLine_record l v Hl Hv) as [-> Ho].
    cbn [map]. rewrite Ho, IH. reflexivity.
  - apply Forall_map. apply (Forall_impl _ (P := fun r => free PIPE (fst r) /\ free PIPE (snd r) /\
                   free LF (fst r) /\ free LF (snd r))); [|exact Hr].
    intros [l v] [_ [_ [Hl Hv]]]. cbn [fst snd] in *. unfold free in *.
    rewrite has_app, Hl. change ("|" ++ v) with (String PIPE v). simpl. exact Hv.
Qed.

Lemma prepareData_round_trip_witness :
  prepareData (JS.join LF ("powiat|teryt" :: map (fun r => fst r ++ "|" ++ snd r)
                                               [("boleslawiecki", "0201"); ("", "x y")]))
  = map (fun r => {| label := Some (fst r); value := Some (snd r) |})
        [("boleslawiecki", "0201"); ("", "x y")].
Proof.
  apply (prepareData_round_trip "powiat|teryt" [("boleslawiecki", "0201"); ("", "x y")]).
  - reflexivity.
  - repeat constructor.
Defined.

(** ** The geometry pipeline, beyond its failures *)

Lemma Forall2_map_length {A B : Type} (R : A -> B -> Prop) (l : list (list A))
  (l' : list (list B)) :
  Forall2 (Forall2 R) l l' -> map (@length B) l' = map (@length A) l.
Proof.
  induction 1 as [|x y l l' Hxy _ IH]; [reflexivity|].
  cbn [map]. rewrite IH, (Forall2_length Hxy). reflexivity.
Qed.

Section PipelineFurther.
Context `{E : Externals}.

(** When the status line is free of [-1] and every non-empty line after it
    decodes and reprojects, [prepareGeometry] returns those geometries, one
    per non-empty line and in the order of the lines, and logs nothing. *)
Theorem prepareGeometry_success
  (status : string) (lines : list string) (geoms : list Geometry) (w : World) :
  free LF status -> Forall (free LF) lines ->
  JS.includes status "-1" = false ->
  Forall2 (fun line g => from2180to4326 line = inr g) (filter JS.truthy lines) geoms ->
  prepareGeometry (JS.join LF (status :: lines)) w = (inr (Some geoms), w).
Proof.
  intros Hs Hl Hstatus Hall. rewrite prepareGeometry_run.
  unfold prepareGeometry_try. rewrite (split_join LF status lines Hs Hl), Hstatus.
  assert (Hmap : mapE (fun wkd => from2180to4326 wkd) (filter JS.truthy lines) = inr geoms)
    by (apply mapE_Forall2; exact Hall).
  rewrite Hmap. reflexivity.
Qed.

(** A body with nothing but blank lines after the status yields the empty
    list, not [undefined]; the empty input is one such body. *)
Theorem prepareGeometry_blank_body (status : string) (n : nat) (w : World) :
  free LF status -> JS.includes status "-1" = false ->
  prepareGeometry (JS.join LF (status :: repeat "" n)) w = (inr (Some []), w).
Proof.
  intros Hs Hstatus. rewrite prepareGeometry_run.
  unfold prepareGeometry_try. rewrite split_join, Hstatus; [| exact Hs |].
  - replace (filter JS.truthy (repeat "" n)) with (@nil string); [reflexivity|].
    induction n as [|n IH]; [reflexivity | exact IH].
  - apply Forall_forall. intros x Hx. apply repeat_spec in Hx. subst x. reflexivity.
Qed.

(** [prepareGeometry] has two outcomes and no other: the list, with one
    geometry per non-empty line after the first and the world as it was, or
    [undefined] with exactly one error logged.  It never throws and never
    writes a slot. *)
Theorem prepareGeometry_outcomes (data : string) (w : World) :
  (exists geoms,
     prepareGeometry data w = (inr (Some geoms), w) /\
     length geoms = length (filter JS.truthy (tl (JS.split LF data)))) \/
  (exists e, prepareGeometry data w = (inr None, logged w [ConsoleLog e])).
Proof.
  rewrite prepareGeometry_run.
  destruct (prepareGeometry_try data) as [e|geoms] eqn:Htry; [right; eauto|].
  left. exists geoms. split; [reflexivity|].
  unfold prepareGeometry_try in Htry.
  destruct (JS.split LF data) as [|status response]; [discriminate|].
  destruct (JS.includes status "-1"); [discriminate|].
  apply mapE_Forall2 in Htry. cbn [tl]. symmetry. exact (Forall2_length Htry).
Qed.

(** Reprojection never changes the type of a geometry. *)
Theorem reproject_preserves_type (g g' : Geometry) :
  reproject g = inr g' -> geometryType g' = geometryType g.
Proof.
  intros H. apply reproject_spec in H. destruct H; reflexivity.
Qed.

(** A reprojected MultiPolygon has the shape of the input: as many polygons,
    as many rings in each polygon and as many points in each ring. *)
Theorem reproject_MultiPolygon_shape (polygons : list (list (list Position))) (g' : Geometry) :
  reproject (MultiPolygon polygons) = inr g' ->
  exists polygons',
    g' = MultiPolygon polygons' /\
    map (map (@length Position)) polygons' = map (map (@length Position)) polygons.
Proof.
  intros H. apply reproject_spec in H. inversion H as [| |ps ps' HF| | | |]; subst.
  exists ps'. split; [reflexivity|]. clear H.
  induction HF as [|x y l l' Hxy _ IH]; [reflexivity|].
  cbn [map]. rewrite IH. f_equal.
  exact (Forall2_map_length _ _ _ Hxy).
Qed.

(** One point that proj4 rejects makes the reprojection of the whole polygon
    throw: no polygon with the other points transformed is returned. *)
Theorem reproject_Polygon_bad_point
  (coord : list (list Position)) (ring : list Position) (p : Position) (e : JsError) :
  In ring coord -> In p ring -> proj4 sourceProj destProj (xy p) = inl e ->
  exists e', reproject (Polygon coord) = inl e'.
Proof.
  intros Hring Hp He.
  destruct (mapE_throws (fun p => proj4 sourceProj destProj (xy p)) ring p e Hp He)
    as [e1 H1].
  destruct (mapE_throws
              (fun ring => mapE (fun p => proj4 sourceProj destProj (xy p)) ring)
              coord ring e1 Hring H1) as [e2 H2].
  exists e2. unfold reproject, transformPolygonCoordinates.
  cbn [bind ret Monad_result]. rewrite H2. reflexivity.
Qed.

End PipelineFurther.

Lemma prepareGeometry_success_witness :
  @prepareGeometry online (JS.join LF ["0"; "01"; ""; "02"]) emptyWorld
  = (inr (Some [Point [0; 0]%float; LineString square]), emptyWorld).
Proof.
  apply (@prepareGeometry_success online "0" ["01"; ""; "02"]
           [Point [0; 0]%float; LineString square] emptyWorld).
  - reflexivity.
  - repeat constructor.
  - reflexivity.
  - repeat constructor.
Defined.

Lemma prepareGeometry_blank_body_witness :
  @prepareGeometry online (JS.join LF ("" :: repeat "" 0)) emptyWorld
  = (inr (Some []), emptyWorld).
Proof.
  apply (@prepareGeometry_blank_body online "" 0 emptyWorld); reflexivity.
Defined.

Lemma reproject_preserves_type_witness :
  geometryType (Polygon [[[0; 0]; [10; 0]; [10; 10]; [0; 0]]%float])
  = geometryType (Polygon [square]).
Proof.
  apply (@reproject_preserves_type online (Polygon [square])). reflexivity.
Defined.

Lemma reproject_MultiPolygon_shape_witness :
  exists polygons',
    MultiPolygon [[[[0; 0]; [10; 0]; [10; 10]; [0; 0]]%float]] = MultiPolygon polygons' /\
    map (map (@length Position)) polygons' = map (map (@length Position)) [[square]].
Proof.
  apply (@reproject_MultiPolygon_shape online [[square]]). reflexivity.
Defined.

Lemma reproject_Polygon_bad_point_witness :
  exists e', @reproject online (Polygon [square; [[500000%float]]]) = inl e'.
Proof.
  apply (@reproject_Polygon_bad_point online [square; [[500000%float]]]
           [[500000%float]] [500000%float]
           (TypeError "coordinates must be finite numbers")).
  - simpl. auto.
  - simpl. auto.
  - reflexivity.
Defined.

(** ** The request orchestrator, beyond its failures *)

Section OrchestratorFurther.
Context `{E : Externals}.

(** [fetchObject] never rejects and never writes a slot; it issues exactly
    one request, for the list of [object] under [teryt], and resolves to the
    parsed body when there is one and to the abort closure otherwise. *)
Theorem fetchObject_contract (object teryt : string) (w : World) :
  fst (fetchObject object teryt w)
  = inr match bodyOf (listUrl object teryt) with
        | Some data => OptionArray (prepareData data)
        | None => AbortClosure
        end /\
  hook (snd (fetchObject object teryt w)) = hook w /\
  requests (snd (fetchObject object teryt w)) = (requests w ++ [listUrl object teryt])%list.
Proof.
  destruct (fetchObject_run object teryt w) as [evs [Hq ->]]. cbn [fst snd].
  repeat split. exact (requests_logged w _ evs Hq).
Qed.

(** What [fetchObject] writes to the console when its request fails: the
    error, once, unless the error is an [AbortError], which is swallowed in
    silence. *)
Theorem fetchObject_console (object teryt : string) (e : JsError) (w : World) :
  network (listUrl object teryt) = inl e \/
  (exists resp, network (listUrl object teryt) = inr resp /\ text resp = inl e) ->
  snd (fetchObject object teryt w)
  = logged w (Fetch (listUrl object teryt)
              :: if name e =? "AbortError" then [] else [ConsoleError e]).
Proof.
  intros H.
  unfold fetchObject, fetch, text_of, liftR, console_error, emit, logged.
  cbn [bind ret catch Monad_M Exc_M hook log].
  destruct H as [Hn|[resp [Hn Ht]]]; rewrite Hn; [|rewrite Ht];
    destruct (name e =? "AbortError"); cbn [negb snd hook log];
    rewrite <- ?app_assoc; reflexivity.
Qed.

(** A list fetch that gets a body replaces its own list by the parsed body
    and writes nothing else: the other lists are not cleared, and neither is
    a message left in the error slot. *)
Theorem list_fetch_success_sets_only_its_slot
  (lvl : Level) (value data : string) (w : World) :
  bodyOf (listUrl (objectOf lvl) value) = Some data ->
  fst (fetchLevel lvl value w) = inr tt /\
  slot lvl (hook (snd (fetchLevel lvl value w))) = prepareData data /\
  (forall lvl', lvl' <> lvl ->
     slot lvl' (hook (snd (fetchLevel lvl value w))) = slot lvl' (hook w)) /\
  voivodeships (hook (snd (fetchLevel lvl value w))) = voivodeships (hook w) /\
  error (hook (snd (fetchLevel lvl value w))) = error (hook w).
Proof.
  intros Hb. destruct (fetchLevel_run lvl value w) as [evs [_ ->]].
  cbn [fst snd hook]. unfold settle. rewrite Hb.
  split; [reflexivity|].
  destruct lvl; (split; [reflexivity|]); (split; [|split; reflexivity]);
    intros [] Hne; try reflexivity; contradiction.
Qed.

(** Two fetches of one level in a row: the list ends as the later body when
    the later request delivers one, else as the earlier body, else as it was. *)
Theorem list_fetch_last_write_wins (lvl : Level) (first second : string) (w : World) :
  slot lvl (hook (snd ((fetchLevel lvl first ;; fetchLevel lvl second) w)))
  = match bodyOf (listUrl (objectOf lvl) second) with
    | Some later => prepareData later
    | None =>
        match bodyOf (listUrl (objectOf lvl) first) with
        | Some earlier => prepareData earlier
        | None => slot lvl (hook w)
        end
    end.
Proof.
  cbn [bind Monad_M].
  destruct (fetchLevel_run lvl first w) as [evs1 [_ ->]].
  match goal with |- context [fetchLevel lvl second ?w1] =>
    destruct (fetchLevel_run lvl second w1) as [evs2 [_ ->]] end.
  cbn [snd hook]. unfold settle. cbn [hook].
  destruct lvl;
    destruct (bodyOf (listUrl _ second)); destruct (bodyOf (listUrl _ first)); reflexivity.
Qed.

(** The voivodeship fetch that gets a body stores the parsed body and leaves
    the other four slots alone; an earlier error message stays. *)
Theorem voivodeships_fetch_success (data : string) (w : World) :
  bodyOf voivodeshipsUrl = Some data ->
  fst (fetchVoivodeships w) = inr tt /\
  hook (snd (fetchVoivodeships w))
  = {| voivodeships := prepareData data;
       districts := districts (hook w);
       tenants := tenants (hook w);
       precincts := precincts (hook w);
       error := error (hook w) |}.
Proof.
  intros Hb. split.
  - destruct (fetchVoivodeships_run w) as [evs [h [_ [-> _]]]]. reflexivity.
  - rewrite fetchVoivodeships_hook. unfold afterVoivodeships. unfold bodyOf in Hb.
    destruct (network voivodeshipsUrl) as [?|resp]; [discriminate|].
    destruct (text resp); [discriminate|]. injection Hb as ->. reflexivity.
Qed.


End OrchestratorFurther.

Lemma fetchObject_console_witness :
  snd (@fetchObject aborted "powiat" "02" emptyWorld)
  = logged emptyWorld (Fetch (listUrl "powiat" "02")
                       :: if name abortError =? "AbortError" then []
                          else [ConsoleError abortError]).
Proof.
  apply (@fetchObject_console aborted "powiat" "02" abortError emptyWorld).
  left. reflexivity.
Defined.

Lemma list_fetch_success_sets_only_its_slot_witness :
  fst (@fetchLevel online District "02" emptyWorld) = inr tt /\
  slot District (hook (snd (@fetchLevel online District "02" emptyWorld)))
  = prepareData ("powiat|teryt" ++ nl ++ "boleslawiecki|0201" ++ nl) /\
  (forall lvl', lvl' <> District ->
     slot lvl' (hook (snd (@fetchLevel online District "02" emptyWorld)))
     = slot lvl' (hook emptyWorld)) /\
  voivodeships (hook (snd (@fetchLevel online District "02" emptyWorld)))
  = voivodeships (hook emptyWorld) /\
  error (hook (snd (@fetchLevel online District "02" emptyWorld))) = error (hook emptyWorld).
Proof.
  apply (@list_fetch_success_sets_only_its_slot online District "02"
           ("powiat|teryt" ++ nl ++ "boleslawiecki|0201" ++ nl) emptyWorld).
  reflexivity.
Defined.

Lemma voivodeships_fetch_success_witness :
  fst (@fetchVoivodeships complete emptyWorld) = inr tt /\
  hook (snd (@fetchVoivodeships complete emptyWorld))
  = {| voivodeships := prepareData ("wojewodztwo|teryt" ++ nl ++ "dolnoslaskie|02" ++ nl);
       districts := districts (hook emptyWorld);
       tenants := tenants (hook emptyWorld);
       precincts := precincts (hook emptyWorld);
       error := error (hook emptyWorld) |}.
Proof.
  apply (@voivodeships_fetch_success complete
           ("wojewodztwo|teryt" ++ nl ++ "dolnoslaskie|02" ++ nl) emptyWorld).
  reflexivity.
Defined.


(** ** The cascade and the lookups in general *)

Section CascadeFurther.
Context `{E : Externals}.

Lemma settle_frame (lvl : Level) (url : string) (w : World) :
  voivodeships (settle (match lvl with
                        | District => setDistricts
                        | Tenant => setTenants
                        | Precinct => setPrecincts
                        end) url w) = voivodeships (hook w) /\
  error (settle (match lvl with
                 | District => setDistricts
                 | Tenant => setTenants
                 | Precinct => setPrecincts
                 end) url w) = error (hook w).
Proof.
  unfold settle. destruct (bodyOf url); destruct lvl; split; reflexivity.
Qed.

(** One guarded, unawaited fetch of the cascade. *)
Lemma whenTruthy_fetchLevel_run (lvl : Level) (field : option string) (w : World) :
  exists w',
    whenTruthy field (fetchLevel lvl) w = (inr tt, w') /\
    requests w' = (requests w ++ requestOf lvl field)%list /\
    voivodeships (hook w') = voivodeships (hook w) /\
    error (hook w') = error (hook w).
Proof.
  unfold whenTruthy, requestOf.
  destruct field as [v|]; [destruct (JS.truthy v)|].
  - destruct (fetchLevel_run lvl v w) as [evs [Hq Hrun]].
    unfold fire. cbn [bind ret catch Monad_M Exc_M]. rewrite Hrun.
    eexists. split; [reflexivity|]. cbn [hook].
    destruct (settle_frame lvl (listUrl (objectOf lvl) v) w) as [Hv He].
    split; [|split; assumption].
    unfold requests. cbn [log]. unfold quiet in Hq.
    rewrite flat_map_app. cbn [flat_map]. rewrite Hq. reflexivity.
  - exists w. rewrite app_nil_r. repeat split.
  - exists w. rewrite app_nil_r. repeat split.
Qed.

(** Whatever the props, the seeding effect never throws, requests exactly the
    lists of the fields that are present and truthy, in the order district,
    tenant, precinct, and leaves [voivodeships] and [error] alone. *)
Theorem seedCascade_contract (props : option Props) (w : World) :
  fst (seedCascade props w) = inr tt /\
  requests (snd (seedCascade props w)) = (requests w ++ seedRequests props)%list /\
  voivodeships (hook (snd (seedCascade props w))) = voivodeships (hook w) /\
  error (hook (snd (seedCascade props w))) = error (hook w).
Proof.
  unfold seedCascade, seedRequests.
  change fetchDistricts with (fetchLevel District).
  change fetchTenants with (fetchLevel Tenant).
  change fetchPrecincts with (fetchLevel Precinct).
  cbn [bind Monad_M].
  destruct (whenTruthy_fetchLevel_run District (optField voivodeship props) w)
    as [w1 [-> [Hr1 [Hv1 He1]]]].
  destruct (whenTruthy_fetchLevel_run Tenant (optField district props) w1)
    as [w2 [-> [Hr2 [Hv2 He2]]]].
  destruct (whenTruthy_fetchLevel_run Precinct (optField tenant props) w2)
    as [w3 [-> [Hr3 [Hv3 He3]]]].
  cbn [fst snd]. split; [reflexivity|].
  split; [rewrite Hr3, Hr2, Hr1, <- !app_assoc; reflexivity|].
  split; congruence.
Qed.

(** Mounting the hook never throws, whatever the props and the network; its
    requests are the voivodeship list first and then those of the cascade, so
    a hook mounted without props makes exactly one request. *)
Theorem useUldk_mount_requests (props : option Props) (w : World) :
  fst (useUldk props w) = inr tt /\
  requests (snd (useUldk props w))
  = (requests w ++ voivodeshipsUrl :: seedRequests props)%list.
Proof.
  unfold useUldk, seedCascade, seedRequests.
  change fetchDistricts with (fetchLevel District).
  change fetchTenants with (fetchLevel Tenant).
  change fetchPrecincts with (fetchLevel Precinct).
  cbn [bind Monad_M].
  destruct (fetchVoivodeships_run w) as [evs [h [Hq [-> _]]]].
  set (w0 := {| hook := h; log := log w ++ Fetch voivodeshipsUrl :: evs |}).
  assert (Hr0 : requests w0 = (requests w ++ [voivodeshipsUrl])%list).
  { unfold requests, w0. cbn [log]. unfold quiet in Hq.
    rewrite flat_map_app. cbn [flat_map]. rewrite Hq. reflexivity. }
  destruct (whenTruthy_fetchLevel_run District (optField voivodeship props) w0)
    as [w1 [-> [Hr1 _]]].
  destruct (whenTruthy_fetchLevel_run Tenant (optField district props) w1)
    as [w2 [-> [Hr2 _]]].
  destruct (whenTruthy_fetchLevel_run Precinct (optField tenant props) w2)
    as [w3 [-> [Hr3 _]]].
  cbn [fst snd]. split; [reflexivity|].
  rewrite Hr3, Hr2, Hr1, Hr0, <- !app_assoc. reflexivity.
Qed.

(** A lookup is one request followed by [prepareGeometry] of the body. *)
Lemma lookup_run (url : string) (w : World) :
  exists r evs,
    quiet evs /\
    (resp <- fetch url ;; data <- text_of resp ;; prepareGeometry data) w
    = (r, logged w (Fetch url :: evs)).
Proof.
  unfold fetch, text_of, liftR, emit, logged. cbn [bind ret Monad_M].
  destruct (network url) as [e|resp].
  - exists (inl e), []. split; reflexivity.
  - destruct (text resp) as [e|data].
    + exists (inl e), []. split; reflexivity.
    + rewrite prepareGeometry_run.
      destruct (prepareGeometry_try data) as [e|geoms].
      * exists (inr None), [ConsoleLog e]. unfold logged. cbn [hook log].
        rewrite <- app_assoc. split; reflexivity.
      * exists (inr (Some geoms)), []. split; reflexivity.
Qed.

(** The geometry lookups never write a slot of the hook, whether they
    resolve or reject, and each issues exactly one request, for its own
    endpoint with the identifier appended as it is. *)
Theorem geometry_lookup_frame (id : string) (w : World) :
  (hook (snd (getRegionGeometryById id w)) = hook w /\
   requests (snd (getRegionGeometryById id w)) = (requests w ++ [regionUrl id])%list) /\
  (hook (snd (getParcelGeometryById id w)) = hook w /\
   requests (snd (getParcelGeometryById id w)) = (requests w ++ [parcelUrl id])%list).
Proof.
  unfold getRegionGeometryById, getParcelGeometryById.
  destruct (lookup_run (regionUrl id) w) as [r1 [evs1 [Hq1 ->]]].
  destruct (lookup_run (parcelUrl id) w) as [r2 [evs2 [Hq2 ->]]].
  cbn [snd]. repeat split; apply requests_logged; assumption.
Qed.

Lemma prepareGeometry_try_success
  (status : string) (lines : list string) (geoms : list Geometry) :
  free LF status -> Forall (free LF) lines ->
  JS.includes status "-1" = false ->
  Forall2 (fun line g => from2180to4326 line = inr g) (filter JS.truthy lines) geoms ->
  prepareGeometry_try (JS.join LF (status :: lines)) = inr geoms.
Proof.
  intros Hs Hl Hstatus Hall.
  unfold prepareGeometry_try. rewrite (split_join LF status lines Hs Hl), Hstatus.
  apply mapE_Forall2. exact Hall.
Qed.

(** End to end: a lookup whose request delivers a body with a status free of
    [-1] and lines that all decode resolves to the geometries, having made its
    request and logged nothing else. *)
Theorem geometry_lookup_success
  (id status : string) (lines : list string) (geoms : list Geometry) (w : World) :
  free LF status -> Forall (free LF) lines ->
  JS.includes status "-1" = false ->
  Forall2 (fun line g => from2180to4326 line = inr g) (filter JS.truthy lines) geoms ->
  (bodyOf (regionUrl id) = Some (JS.join LF (status :: lines)) ->
   getRegionGeometryById id w = (inr (Some geoms), logged w [Fetch (regionUrl id)])) /\
  (bodyOf (parcelUrl id) = Some (JS.join LF (status :: lines)) ->
   getParcelGeometryById id w = (inr (Some geoms), logged w [Fetch (parcelUrl id)])).
Proof.
  intros Hs Hl Hstatus Hall.
  pose proof (prepareGeometry_try_success status lines geoms Hs Hl Hstatus Hall) as Htry.
  split; intros Hb; unfold bodyOf in Hb;
    unfold getRegionGeometryById, getParcelGeometryById, fetch, text_of, liftR, emit, logged;
    cbn [bind ret Monad_M].
  - destruct (network (regionUrl id)) as [?|resp]; [discriminate|].
    destruct (text resp) as [?|data]; [discriminate|]. injection Hb as ->.
    rewrite prepareGeometry_run, Htry. reflexivity.
  - destruct (network (parcelUrl id)) as [?|resp]; [discriminate|].
    destruct (text resp) as [?|data]; [discriminate|]. injection Hb as ->.
    rewrite prepareGeometry_run, Htry. reflexivity.
Qed.

End CascadeFurther.

Lemma geometry_lookup_success_witness :
  (@bodyOf complete (regionUrl "0201") = Some (JS.join LF ["0"; "03"; ""]) ->
   @getRegionGeometryById complete "0201" emptyWorld
   = (inr (Some [Polygon [[[0; 0]; [10; 0]; [10; 10]; [0; 0]]%float]]),
      logged emptyWorld [Fetch (regionUrl "0201")])) /\
  (@bodyOf complete (parcelUrl "0201") = Some (JS.join LF ["0"; "03"; ""]) ->
   @getParcelGeometryById complete "0201" emptyWorld
   = (inr (Some [Polygon [[[0; 0]; [10; 0]; [10; 10]; [0; 0]]%float]]),
      logged emptyWorld [Fetch (parcelUrl "0201")])).
Proof.
  apply (@geometry_lookup_success complete "0201" "0" ["03"; ""]
           [Polygon [[[0; 0]; [10; 0]; [10; 10]; [0; 0]]%float]] emptyWorld).
  - reflexivity.
  - repeat constructor.
  - reflexivity.
  - repeat constructor.
Defined.

Example region_lookup_end_to_end :
  @getRegionGeometryById complete "0201" emptyWorld
  = (inr (Some [Polygon [[[0; 0]; [10; 0]; [10; 10]; [0; 0]]%float]]),
     logged emptyWorld [Fetch (regionUrl "0201")]).
Proof. reflexivity. Qed.

Example mount_without_props_requests :
  requests (snd (@useUldk complete None emptyWorld)) = [voivodeshipsUrl].
Proof. reflexivity. Qed.

(** ** The example application *)

Section ExampleAppProperties.
Context `{E : Externals}.

Lemma appRequests_FromHook (evs : list Event) :
  flat_map (fun ev => match ev with FromHook (Fetch url) => [url] | _ => [] end)
           (map FromHook evs)
  = flat_map (fun ev => match ev with Fetch url => [url] | _ => [] end) evs.
Proof.
  induction evs as [|ev evs IH]; [reflexivity|].
  cbn [map flat_map]. rewrite IH. destruct ev; reflexivity.
Qed.

(** The requests of a log that grew by one request of the hook, some quiet
    events of the hook and some events of the application's own. *)
Lemma appRequests_grown (aw : AppWorld) (h : Hook) (url : string) (evs : list Event)
  (own : list AppEvent) :
  quiet evs ->
  flat_map (fun ev => match ev with FromHook (Fetch url) => [url] | _ => [] end) own = [] ->
  appRequests {| appHook := h;
                 appLog := (appLog aw ++ map FromHook ([] ++ Fetch url :: evs)) ++ own |}
  = (appRequests aw ++ [url])%list.
Proof.
  intros Hq Hown. unfold appRequests. cbn [appLog app map].
  rewrite !flat_map_app. cbn [flat_map]. rewrite appRequests_FromHook.
  unfold quiet in Hq. rewrite Hq, Hown. cbn [app]. rewrite app_nil_r. reflexivity.
Qed.

Lemma liftHook_fetchDistricts_run (v : string) (aw : AppWorld) :
  exists aw',
    liftHook (fire (fetchDistricts v)) aw = (inr tt, aw') /\
    appRequests aw' = (appRequests aw ++ [listUrl "powiat" v])%list /\
    appHook aw' = hook (snd (fetchDistricts v {| hook := appHook aw; log := [] |})).
Proof.
  destruct (fetchLevel_run District v {| hook := appHook aw; log := [] |})
    as [evs [Hq Hrun]].
  cbn [fetchLevel objectOf hook log] in Hrun.
  unfold liftHook, fire. cbn [bind ret catch Monad_M Exc_M]. rewrite Hrun.
  eexists. split; [reflexivity|]. cbn [snd hook]. split; [|reflexivity].
  rewrite <- (app_nil_r (appLog aw ++ _)).
  apply appRequests_grown; [exact Hq | reflexivity].
Qed.

(** A lookup fired from the application: one request, no slot written, and
    either the value printed or the rejection left unhandled. *)
Lemma appFire_lookup_run (url : string) (print : option (list Geometry) -> AppEvent)
  (aw : AppWorld) :
  (forall v, match print v with FromHook (Fetch _) => False | _ => True end) ->
  exists aw',
    appFire (r <- liftHook (resp <- fetch url ;; data <- text_of resp ;;
                            prepareGeometry data) ;;
             appEmit (print r)) aw
    = (inr tt, aw') /\
    appRequests aw' = (appRequests aw ++ [url])%list /\
    appHook aw' = appHook aw.
Proof.
  intros Hprint.
  destruct (lookup_run url {| hook := appHook aw; log := [] |}) as [r [evs [Hq Hrun]]].
  unfold logged in Hrun. cbn [hook log] in Hrun.
  unfold appFire, liftHook, appEmit. cbn [bind ret catch Monad_App Exc_App].
  rewrite Hrun. destruct r as [e|v]; cbn [appHook appLog hook log].
  - eexists. split; [reflexivity|]. split; [|reflexivity].
    apply appRequests_grown; [exact Hq | reflexivity].
  - eexists. split; [reflexivity|]. split; [|reflexivity].
    apply appRequests_grown; [exact Hq|].
    cbn [flat_map]. specialize (Hprint v). destruct (print v) as [[]| |]; try reflexivity.
    contradiction.
Qed.

(** The effect on the selection never throws.  Without a selection it does
    nothing.  With one it requests the districts of the selection, then the
    region of the first district of the list its render held (none when that
    list is empty or its first value is empty), then the fixed parcel; and the
    hook's slots end as the district fetch alone leaves them. *)
Theorem selectionEffect_contract
  (selectedVoivodeship : string) (districts : list Option) (aw : AppWorld) :
  fst (selectionEffect selectedVoivodeship districts aw) = inr tt /\
  appRequests (snd (selectionEffect selectedVoivodeship districts aw))
  = (appRequests aw
     ++ if JS.truthy selectedVoivodeship then
          listUrl "powiat" selectedVoivodeship
          :: match firstValue districts with
             | Some id => if JS.truthy id then [regionUrl id] else []
             | None => []
             end
          ++ [parcelUrl exampleParcelId]
        else [])%list /\
  appHook (snd (selectionEffect selectedVoivodeship districts aw))
  = if JS.truthy selectedVoivodeship then
      hook (snd (fetchDistricts selectedVoivodeship {| hook := appHook aw; log := [] |}))
    else appHook aw.
Proof.
  unfold selectionEffect. destruct (JS.truthy selectedVoivodeship).
  2:{ cbn [ret Monad_App fst snd]. rewrite app_nil_r. repeat split. }
  cbn [bind Monad_App].
  destruct (liftHook_fetchDistricts_run selectedVoivodeship aw) as [aw1 [-> [Hr1 Hh1]]].
  assert (Hregion : exists aw2,
             appFire (setRegionGeometry (firstValue districts)) aw1 = (inr tt, aw2) /\
             appRequests aw2
             = (appRequests aw1 ++ match firstValue districts with
                                   | Some id => if JS.truthy id then [regionUrl id] else []
                                   | None => []
                                   end)%list /\
             appHook aw2 = appHook aw1).
  { unfold setRegionGeometry. destruct (firstValue districts) as [id|].
    - destruct (JS.truthy id).
      + apply (appFire_lookup_run (regionUrl id) LogGeom aw1). intros v. exact I.
      + exists aw1. rewrite app_nil_r. repeat split.
    - exists aw1. rewrite app_nil_r. repeat split. }
  destruct Hregion as [aw2 [-> [Hr2 Hh2]]].
  destruct (appFire_lookup_run (parcelUrl exampleParcelId) LogParcel aw2 (fun _ => I))
    as [aw3 [Hrun3 [Hr3 Hh3]]].
  unfold setParcelGeometry, getParcelGeometryById. rewrite Hrun3. cbn [fst snd].
  split; [reflexivity|]. split.
  - rewrite Hr3, Hr2, Hr1, <- !app_assoc. reflexivity.
  - congruence.
Qed.

(** A parcel lookup that the network rejects is not caught by the
    application: nothing is printed and the rejection stays unhandled. *)
Theorem setParcelGeometry_network_error (e : JsError) (aw : AppWorld) :
  network (parcelUrl exampleParcelId) = inl e ->
  appFire setParcelGeometry aw
  = (inr tt,
     {| appHook := appHook aw;
        appLog := appLog aw ++ [FromHook (Fetch (parcelUrl exampleParcelId));
                                FromHook (UnhandledRejection e)] |}).
Proof.
  intros Hn.
  unfold appFire, setParcelGeometry, liftHook, appEmit, getParcelGeometryById,
    fetch, liftR, emit.
  cbn [bind ret catch Monad_M Monad_App Exc_App hook log]. rewrite Hn.
  cbn [appHook appLog hook log app map]. rewrite <- app_assoc. reflexivity.
Qed.

End ExampleAppProperties.

Lemma setParcelGeometry_network_error_witness :
  @appFire unit (@setParcelGeometry offline) emptyApp
  = (inr tt,
     {| appHook := appHook emptyApp;
        appLog := appLog emptyApp ++ [FromHook (Fetch (parcelUrl exampleParcelId));
                                      FromHook (UnhandledRejection failedToFetch)] |}).
Proof.
  apply (@setParcelGeometry_network_error offline failedToFetch emptyApp). reflexivity.
Defined.

Example selection_effect_first_selection :
  appLog (snd (@selectionEffect complete "02" [] emptyApp))
  = [ FromHook (Fetch (listUrl "powiat" "02"));
      FromHook (Fetch (parcelUrl exampleParcelId));
      LogParcel (Some [Point [0; 0]%float]) ].
Proof. reflexivity. Qed.

Example selection_effect_later_selection :
  appRequests (snd (@selectionEffect complete "04"
                      [ {| label := Some "boleslawiecki"; value := Some "0201" |} ] emptyApp))
  = [ listUrl "powiat" "04"; regionUrl "0201"; parcelUrl exampleParcelId ].
Proof. reflexivity. Qed.

Example example_app_mount_requests :
  appRequests (snd (@mountExampleApp complete emptyApp)) = [voivodeshipsUrl].
Proof. reflexivity. Qed.
